(** * mesh-cli: credential cache, SDK initialisation and command handlers

    A shallow embedding of [src/utils/sdk.ts], of the [authorize] and
    [authorize-batch] handlers of [src/commands/authorization.ts] and of the
    [account-exists] handler of [src/commands/enforcer.ts].

    The program is a Node.js command line tool.  Everything it does goes
    through its environment: the file system ([fs]), the clock ([Date.now]),
    the process environment ([process.env]), the JSON codec, [viem] and the
    Mesh SDK.  The environment is modelled as follows.

    - The file system is a finite map from paths to nodes, threaded through
      the code together with the trace of the calls that are visible from
      outside the process (file writes, terminal output, SDK calls).
    - Exceptions are an explicit outcome; [try]/[catch] is a combinator.
    - Every reading of the clock is an argument of the function that reads
      it, so a statement holds for whatever the clock shows.
    - JavaScript numbers are modelled by integers: the timestamps and the
      numbers of seconds of this program are integers far below 2^53.
    - The JSON codec, the URL parser, [viem] and the SDK are interfaces
      ([JsRuntime], [MeshSdk]); the code is embedded over any implementation
      of them. *)

From Stdlib Require Import ZArith Ascii String DecimalString.
From stdpp Require Import base option list strings gmap.

Local Open Scope Z_scope.
#[local] Set Warnings "-clear-no-such-hyp".

(** ** JavaScript values *)

(** The values [JSON.parse] can return. *)
#[warnings="-register-all"]
Inductive json : Type :=
  | JNull
  | JBool (b : bool)
  | JNum (n : Z)
  | JStr (s : string)
  | JArr (elements : list json)
  | JObj (members : list (string * json)).

(** A JavaScript value that came out of a property read: [None] is
    [undefined]. *)
Definition jsval : Type := option json.

(** Own property [key] of an object built by [JSON.parse]; when the text
    repeats a key the codec keeps one member, so the first match is the
    value. *)
Fixpoint lookup_member (key : string) (members : list (string * json)) : jsval :=
  match members with
  | [] => None
  | (k, v) :: rest => if String.eqb k key then Some v else lookup_member key rest
  end.

(** Truthiness of a string ([if (s)], [!s], [s || d]): only the empty string is
    falsy. *)
Definition truthy (s : string) : bool := negb (String.eqb s "").

(** Truthiness of [string | undefined], the type of [process.env.X] and of a
    command line option. *)
Definition truthy_opt (o : option string) : bool :=
  match o with
  | Some s => truthy s
  | None => false
  end.

(** [o || d] on [string | undefined]. *)
Definition or_default (o : option string) (d : string) : string :=
  match o with
  | Some s => if truthy s then s else d
  | None => d
  end.

(** [s.startsWith(p)]. *)
Fixpoint startsWith (s p : string) {struct p} : bool :=
  match p, s with
  | EmptyString, _ => true
  | String a p', String b s' => if Ascii.eqb a b then startsWith s' p' else false
  | String _ _, EmptyString => false
  end.

(** [s.slice(n)] for [n >= 0]. *)
Fixpoint slice (n : nat) (s : string) : string :=
  match n, s with
  | O, _ => s
  | S n', String _ s' => slice n' s'
  | S _, EmptyString => EmptyString
  end.

(** ** Exceptions, traces and the state of the world *)

Inductive exn : Type :=
  | Error (message : string)          (* [throw new Error(message)] in this code *)
  | SyntaxError                       (* [JSON.parse] on text that is not JSON *)
  | TypeError                         (* property read on [null], [new URL] on an invalid URL *)
  | SystemError (code : string)       (* [fs]: ENOENT, EISDIR, ENOTDIR, EEXIST *)
  | ExternalError (message : string). (* thrown inside viem or the SDK, or a rejected remote call *)

Inductive outcome (A : Type) : Type :=
  | Ok (a : A)
  | Throw (e : exn).
Arguments Ok {A} a.
Arguments Throw {A} e.

(** A path is the list of its segments below the root. *)
Abbreviation path := (list string).

Inductive node : Type :=
  | Dir
  | File (content : string).

(** [viem]'s [Chain], reduced to what this code could observe. *)
Record Chain : Type := { chain_id : Z; chain_name : string }.

(** [viem]'s account, as returned by [privateKeyToAccount]. *)
Record Account : Type := { address : string; publicKey : string }.

(** The argument of [mesh.signSiWeMessage]. *)
Record SiweParams : Type := {
  domain : string;
  siwe_address : string;
  uri : string;
  version : string;
  chainId : Z;
  nonce : string;
  issuedAt : Z
}.

(** The [data] of the response of [enforcer.accountDetail]. *)
Record AccountDetail : Type := {
  username : string;
  email : string;
  account_address : string;
  tenant : option string;
  role : option string
}.

(** What the process does that is visible outside it. *)
Inductive event : Type :=
  | EvMkdir (p : path)
  | EvWriteFile (p : path) (content : string)
  | EvConsoleLog (text : string)
  | EvConsoleError (text : string)
  | EvReportError (e : exn)
  | EvSpinnerStart (text : string)
  | EvSpinnerSucceed (text : string)
  | EvSpinnerFail (text : string)
  | EvRequestNonce (account_address : string)
  | EvSignSiWeMessage (params : SiweParams)
  | EvAuthenticateSiWe (message signature : string)
  | EvValidateAuthorization (payload : json)
  | EvValidateAuthorizations (payload : json)
  | EvAccountExists (account_address : string)
  | EvAccountDetail.

Record world : Type := World {
  files : gmap path node;
  trace : list event
}.

(** Code with effects: it runs in a world and leaves a value or an exception,
    and a world. *)
Definition M (A : Type) : Type := world → outcome A * world.

#[global] Instance M_ret : MRet M := λ A a w, (Ok a, w).

#[global] Instance M_bind : MBind M := λ A B f m w,
  match m w with
  | (Ok a, w') => f a w'
  | (Throw e, w') => (Throw e, w')
  end.

Definition throw {A : Type} (e : exn) : M A := λ w, (Throw e, w).

(** [try { body } catch (e) { handler }]. *)
Definition try_catch {A : Type} (body : M A) (handler : exn → M A) : M A := λ w,
  match body w with
  | (Ok a, w') => (Ok a, w')
  | (Throw e, w') => handler e w'
  end.

Definition emit (e : event) : M unit := λ w,
  (Ok tt, World (files w) (trace w ++ [e])).

Definition lift_outcome {A : Type} (o : outcome A) : M A := λ w, (o, w).

(** ** The [fs] module *)

Definition existsSync (p : path) : M bool := λ w,
  (Ok (bool_decide (is_Some (files w !! p))), w).

Definition readFileSync (p : path) : M string := λ w,
  match files w !! p with
  | Some (File content) => (Ok content, w)
  | Some Dir => (Throw (SystemError "EISDIR"), w)
  | None => (Throw (SystemError "ENOENT"), w)
  end.

(** [path.dirname]. *)
Definition dirname (p : path) : path := removelast p.

(** The parent of a path is a directory: the root is one, and otherwise the
    map says so. *)
Definition parent_is_dir (fs : gmap path node) (p : path) : bool :=
  match dirname p with
  | [] => true
  | d => match fs !! d with Some Dir => true | _ => false end
  end.

(** [fs.writeFileSync(p, content)]: creates or replaces the file. *)
Definition writeFileSync (p : path) (content : string) : M unit := λ w,
  let w1 := World (files w) (trace w ++ [EvWriteFile p content]) in
  match p with
  | [] => (Throw (SystemError "EISDIR"), w1)
  | _ =>
    match files w !! p with
    | Some Dir => (Throw (SystemError "EISDIR"), w1)
    | _ =>
      if parent_is_dir (files w) p
      then (Ok tt, World (<[p := File content]> (files w)) (trace w1))
      else (Throw (SystemError (match files w !! dirname p with
                                | Some (File _) => "ENOTDIR"
                                | _ => "ENOENT"
                                end)), w1)
    end
  end.

(** The directories [fs.mkdirSync(p, { recursive: true })] creates, from the
    root downwards: [above] is the part of the path already walked. *)
Fixpoint mkdir_walk (above : path) (below : list string) (fs : gmap path node)
  : outcome (gmap path node) :=
  match below with
  | [] => Ok fs
  | s :: below' =>
    let p := above ++ [s] in
    match fs !! p with
    | Some (File _) =>
        Throw (SystemError (match below' with [] => "EEXIST" | _ => "ENOTDIR" end))
    | Some Dir => mkdir_walk p below' fs
    | None => mkdir_walk p below' (<[p := Dir]> fs)
    end
  end.

Definition mkdirSync_recursive (p : path) : M unit := λ w,
  let tr := trace w ++ [EvMkdir p] in
  match mkdir_walk [] p (files w) with
  | Ok fs' => (Ok tt, World fs' tr)
  | Throw e => (Throw e, World (files w) tr)
  end.

(** ** The interfaces of the environment *)

(** Node.js and the language runtime. *)
Class JsRuntime : Type := {
  (** [os.homedir()] *)
  homedir : path;
  (** [JSON.parse]; [None] when it throws a [SyntaxError] *)
  JSON_parse : string → option json;
  (** [JSON.stringify(v)] *)
  JSON_stringify : json → string;
  (** [JSON.stringify(v, null, 2)] *)
  JSON_stringify_pretty : json → string;
  (** the number a string converts to; [None] is [NaN] *)
  StringToNumber : string → option Z;
  (** [Array.prototype.toString] *)
  Array_toString : list json → string;
  (** [new URL(s).hostname]; [None] when [new URL] throws *)
  URL_hostname : string → option string;
  (** the file a path given on the command line names *)
  path_resolve : string → path
}.

(** ** [src/utils/sdk.ts]: the credential cache *)

Definition DEFAULT_API_URI : string := "http://localhost:8080".
Definition SDK_VERSION : string := "0.1.0".

(** [path.join(a, b)] for one more segment. *)
Definition path_join (a : path) (b : string) : path := a ++ [b].

Definition TOKEN_DIR `{rt : JsRuntime} : path := path_join homedir ".mesh-cli".
Definition TOKEN_FILE `{rt : JsRuntime} : path := path_join TOKEN_DIR "token.json".

(** The object [{ token, expiresAt }]. *)
Definition TokenData (token : string) (expiresAt : Z) : json :=
  JObj [("token", JStr token); ("expiresAt", JNum expiresAt)].

(** [JSON.parse(text)] as a call. *)
Definition JSON_parse_call `{rt : JsRuntime} (text : string) : M json :=
  match JSON_parse text with
  | Some v => mret v
  | None => throw SyntaxError
  end.

(** [data.key] for a key that no prototype defines: a [TypeError] on [null],
    [undefined] on the other primitives and on arrays. *)
Definition get_property (data : json) (key : string) : M jsval :=
  match data with
  | JNull => throw TypeError
  | JObj members => mret (lookup_member key members)
  | _ => mret None
  end.

(** The number a value converts to in a comparison; [None] is [NaN]. *)
Definition ToNumber `{rt : JsRuntime} (v : jsval) : option Z :=
  match v with
  | None => None
  | Some JNull => Some 0
  | Some (JBool b) => Some (if b then 1 else 0)
  | Some (JNum n) => Some n
  | Some (JStr s) => StringToNumber s
  | Some (JArr l) => StringToNumber (Array_toString l)
  | Some (JObj _) => None
  end.

(** [v > n] where [n] is a number: false when [v] converts to [NaN]. *)
Definition js_gt `{rt : JsRuntime} (v : jsval) (n : Z) : bool :=
  match ToNumber v with
  | Some x => n <? x
  | None => false
  end.

(** [saveToken(token, expiresIn)]; [now] is what [Date.now()] returns. *)
Definition saveToken `{rt : JsRuntime} (now : Z) (token : string) (expiresIn : Z) : M unit :=
  dir_exists ← existsSync TOKEN_DIR;
  _ ← (if negb dir_exists then mkdirSync_recursive TOKEN_DIR else mret tt);
  let expiresAt := now + expiresIn * 1000 in
  writeFileSync TOKEN_FILE (JSON_stringify (TokenData token expiresAt)).

(** [getToken()]: [None] is [null]; [now] is what [Date.now()] returns. *)
Definition getToken `{rt : JsRuntime} (now : Z) : M (option json) :=
  file_exists ← existsSync TOKEN_FILE;
  if (file_exists : bool) then
    try_catch
      (text ← readFileSync TOKEN_FILE;
       data ← JSON_parse_call text;
       expiresAt ← get_property data "expiresAt";
       if js_gt expiresAt now then mret (Some data) else mret None)
      (λ _, mret None)
  else mret None.

(** ** [src/utils/sdk.ts]: clients and SDK initialisation *)

(** [viem/chains]: [sepolia], whose id is 11155111. *)
Definition sepolia : Chain := {| chain_id := 11155111; chain_name := "Sepolia" |}.

Record PublicClient : Type := { pc_chain : Chain }.
Record WalletClient : Type := { wc_account : Account; wc_chain : Chain }.

(** The object [createUnifiedClient] returns: [{ account, open, private }]. *)
Record UnifiedClient : Type := {
  account : Account;
  open : PublicClient;
  private : WalletClient
}.

Record MeshOptions : Type := {
  apiUri : string;
  apiKey : string;
  sdk_version : string
}.

(** The client [MeshSDKLite.init] builds. *)
Record MeshLite : Type := { lite_options : MeshOptions }.

(** The client [MeshSDK.init] builds; [jwtToken] is what [setJwtToken] was
    last given, if it was called. *)
Record Mesh : Type := {
  mesh_options : MeshOptions;
  getSigner : UnifiedClient;
  jwtToken : option jsval
}.

Inductive sdk : Type :=
  | SdkLite (m : MeshLite)
  | SdkMesh (m : Mesh).

Definition MeshSDKLite_init (o : MeshOptions) : MeshLite := {| lite_options := o |}.

Definition MeshSDK_init (o : MeshOptions) (signer : UnifiedClient) : Mesh :=
  {| mesh_options := o; getSigner := signer; jwtToken := None |}.

Definition setJwtToken (mesh : Mesh) (token : jsval) : Mesh :=
  {| mesh_options := mesh_options mesh; getSigner := getSigner mesh; jwtToken := Some token |}.

(** [viem] and the remote service behind the SDK: what each call answers. *)
Class MeshSdk : Type := {
  (** [None] when [viem] rejects the key *)
  privateKeyToAccount : string → option Account;
  requestNonce : Mesh → string → outcome string;
  signSiWeMessage : Mesh → SiweParams → outcome (string * string);
  authenticateSiWe : Mesh → string → string → outcome string;
  validateAuthorization : sdk → json → outcome json;
  validateAuthorizations : sdk → json → outcome json;
  accountExists : sdk → string → outcome bool;
  accountDetail : sdk → outcome (option AccountDetail)
}.

(** A call that leaves the process: it is recorded, then it answers. *)
Definition call {A : Type} (e : event) (answer : outcome A) : M A :=
  _ ← emit e; lift_outcome answer.

(** Truthiness of a parsed value. *)
Definition json_truthy (v : json) : bool :=
  match v with
  | JNull => false
  | JBool b => b
  | JNum n => negb (n =? 0)
  | JStr s => truthy s
  | JArr _ | JObj _ => true
  end.

(** [createUnifiedClient(privateKey, chain = sepolia)]. *)
Definition createUnifiedClient `{service : MeshSdk} (privateKey : string) (chain : option Chain)
  : M UnifiedClient :=
  let chain := default sepolia chain in
  let normalizedKey :=
    if startsWith privateKey "0x" then slice 2 privateKey else privateKey in
  match privateKeyToAccount ("0x" +:+ normalizedKey) with
  | None => throw (ExternalError "privateKeyToAccount")
  | Some viemAccount =>
      mret {| account := viemAccount;
              open := {| pc_chain := chain |};
              private := {| wc_account := viemAccount; wc_chain := chain |} |}
  end.

(** [initSDKWithApiKey(apiKey, apiUri = DEFAULT_API_URI)]. *)
Definition initSDKWithApiKey (apiKey : string) (apiUri : option string) : M MeshLite :=
  if negb (truthy apiKey) then throw (Error "API key is required")
  else
    let meshOptions :=
      {| apiUri := default DEFAULT_API_URI apiUri; apiKey := apiKey;
         sdk_version := SDK_VERSION |} in
    mret (MeshSDKLite_init meshOptions).

(** [initSDKWithPrivateKey(privateKey, apiKey = '', apiUri = DEFAULT_API_URI)];
    [now] is the clock reading of its [getToken()]. *)
Definition initSDKWithPrivateKey `{rt : JsRuntime} `{service : MeshSdk}
    (privateKey : string) (apiKey apiUri : option string) (now : Z) : M Mesh :=
  if negb (truthy privateKey) then throw (Error "Private key is required")
  else
    unifiedClient ← createUnifiedClient privateKey None;
    let meshOptions :=
      {| apiUri := default DEFAULT_API_URI apiUri; apiKey := default "" apiKey;
         sdk_version := SDK_VERSION |} in
    let mesh := MeshSDK_init meshOptions unifiedClient in
    tokenData ← getToken now;
    match tokenData with
    | Some data =>
        if json_truthy data then
          _ ← emit (EvConsoleLog "Using existing token");
          token ← get_property data "token";
          mret (setJwtToken mesh token)
        else mret mesh
    | None => mret mesh
    end.

Definition missing_credentials : string :=
  "Either API_KEY or PRIVATE_KEY must be provided in environment variables".

(** [initSDK()]; [env] is [process.env]. *)
Definition initSDK `{rt : JsRuntime} `{service : MeshSdk} (env : gmap string string) (now : Z) : M sdk :=
  let apiKey := env !! "API_KEY" in
  let privateKey := env !! "PRIVATE_KEY" in
  let apiUri := or_default (env !! "API_URI") DEFAULT_API_URI in
  if truthy_opt apiKey && negb (truthy_opt privateKey) then
    lite ← initSDKWithApiKey (default "" apiKey) (Some apiUri);
    mret (SdkLite lite)
  else if truthy_opt privateKey then
    mesh ← initSDKWithPrivateKey (default "" privateKey) (Some (or_default apiKey ""))
             (Some apiUri) now;
    mret (SdkMesh mesh)
  else throw (Error missing_credentials).

(** [new URL(apiUri).hostname] as a call. *)
Definition URL_hostname_call `{rt : JsRuntime} (s : string) : M string :=
  match URL_hostname s with
  | Some h => mret h
  | None => throw TypeError
  end.

(** [loginWithSIWE(mesh)]; [issued] is the reading of [new Date()] and
    [saved] the reading of [Date.now()] inside [saveToken]. *)
Definition loginWithSIWE `{rt : JsRuntime} `{service : MeshSdk}
    (env : gmap string string) (issued saved : Z) (mesh : Mesh) : M string :=
  let signer_address := address (account (getSigner mesh)) in
  nonce ← call (EvRequestNonce signer_address) (requestNonce mesh signer_address);
  let apiUri := or_default (env !! "API_URI") DEFAULT_API_URI in
  domain ← URL_hostname_call apiUri;
  let siweMessageParams :=
    {| domain := domain;
       siwe_address := signer_address;
       uri := apiUri;
       version := "1";
       chainId := 1;
       nonce := nonce;
       issuedAt := issued |} in
  signed ← call (EvSignSiWeMessage siweMessageParams)
                (signSiWeMessage mesh siweMessageParams);
  token ← call (EvAuthenticateSiWe signed.1 signed.2)
               (authenticateSiWe mesh signed.1 signed.2);
  _ ← saveToken saved token (30 * 24 * 60 * 60);
  mret token.

(** ** Command handlers *)

Definition newline : string := String "010"%char EmptyString.

(** The [catch] blocks print
    [console.error(chalk.red('Error:'), error instanceof Error ? error.message : String(error))]. *)
Definition report_error (error : exn) : M unit := emit (EvReportError error).

(** The value of an option declared [--outfile [path]]: absent, given bare
    ([true]), or given with a value. *)
Inductive optional_value : Type :=
  | Absent
  | Bare
  | Given (value : string).

Record AuthorizeOptions : Type := {
  opt_file : option string;
  opt_json : option string;
  opt_outfile : optional_value
}.

(** The first part of both [authorize] handlers, which is the same text in
    both: the request is read from [--file] or from [--json]. [None] stands
    for the [return] statements of this part. *)
Definition read_request `{rt : JsRuntime} (options : AuthorizeOptions) : M (option json) :=
  if truthy_opt (opt_file options) then
    let file := default "" (opt_file options) in
    try_catch
      (text ← readFileSync (path_resolve file);
       requestData ← JSON_parse_call text;
       mret (Some requestData))
      (λ error,
       _ ← emit (EvSpinnerFail ("Failed to read or parse file: " +:+ file));
       _ ← report_error error;
       mret None)
  else if truthy_opt (opt_json options) then
    try_catch
      (requestData ← JSON_parse_call (default "" (opt_json options));
       mret (Some requestData))
      (λ error,
       _ ← emit (EvSpinnerFail "Failed to parse JSON string");
       _ ← report_error error;
       mret None)
  else
    _ ← emit (EvSpinnerFail "No input provided. Use --file or --json option.");
    mret None.

(** The last part of both [authorize] handlers, the same text in both: the
    response is saved when [--outfile] is given. *)
Definition save_response `{rt : JsRuntime} (options : AuthorizeOptions) (response : json) : M unit :=
  let outfile_truthy :=
    match opt_outfile options with
    | Absent => false
    | Bare => true
    | Given value => truthy value
    end in
  if outfile_truthy then
    let outPath :=
      match opt_outfile options with
      | Given value => value
      | _ => "tmp/my.json"
      end in
    let dirPath := dirname (path_resolve outPath) in
    dir_exists ← existsSync dirPath;
    _ ← (if negb dir_exists then mkdirSync_recursive dirPath else mret tt);
    _ ← writeFileSync (path_resolve outPath) (JSON_stringify_pretty response);
    emit (EvConsoleLog (newline +:+ "Response saved to " +:+ outPath))
  else mret tt.

(** The action of [auth authorize]; [now] is the clock reading of
    [initSDK()]. *)
Definition authorize_action `{rt : JsRuntime} `{service : MeshSdk}
    (env : gmap string string) (now : Z) (options : AuthorizeOptions) : M unit :=
  _ ← emit (EvSpinnerStart "Validating authorization...");
  try_catch
    (request ← read_request options;
     match request with
     | None => mret tt
     | Some requestData =>
         sdk ← initSDK env now;
         response ← call (EvValidateAuthorization requestData)
                         (validateAuthorization sdk requestData);
         _ ← emit (EvSpinnerSucceed "Authorization validated");
         _ ← emit (EvConsoleLog (newline +:+ "Authorization Response:"));
         _ ← emit (EvConsoleLog (JSON_stringify_pretty response));
         save_response options response
     end)
    (λ error,
     _ ← emit (EvSpinnerFail "Authorization validation failed");
     report_error error).

(** The action of [auth authorize-batch]. *)
Definition authorize_batch_action `{rt : JsRuntime} `{service : MeshSdk}
    (env : gmap string string) (now : Z) (options : AuthorizeOptions) : M unit :=
  _ ← emit (EvSpinnerStart "Validating batch authorization...");
  try_catch
    (request ← read_request options;
     match request with
     | None => mret tt
     | Some requestData =>
         sdk ← initSDK env now;
         response ← call (EvValidateAuthorizations requestData)
                         (validateAuthorizations sdk requestData);
         _ ← emit (EvSpinnerSucceed "Batch authorization validated");
         _ ← emit (EvConsoleLog (newline +:+ "Batch Authorization Response:"));
         _ ← emit (EvConsoleLog (JSON_stringify_pretty response));
         save_response options response
     end)
    (λ error,
     _ ← emit (EvSpinnerFail "Batch authorization validation failed");
     report_error error).

(** [console.log] of the account details, when the response carries them. *)
Definition log_account_details (details : option AccountDetail) : M unit :=
  match details with
  | Some d =>
      _ ← emit (EvConsoleLog (newline +:+ "Account Details:"));
      _ ← emit (EvConsoleLog ("Username: " +:+ username d));
      _ ← emit (EvConsoleLog ("Email: " +:+ email d));
      _ ← emit (EvConsoleLog ("Account Address: " +:+ account_address d));
      _ ← emit (EvConsoleLog ("Tenant: " +:+ or_default (tenant d) "N/A"));
      emit (EvConsoleLog ("Role: " +:+ or_default (role d) "N/A"))
  | None => mret tt
  end.

(** The action of [auth account-exists --address <string>]; the option is
    required, so [address] is a string. *)
Definition account_exists_action `{rt : JsRuntime} `{service : MeshSdk}
    (env : gmap string string) (now : Z) (address : string) : M unit :=
  _ ← emit (EvSpinnerStart "Checking if account exists...");
  try_catch
    (sdk ← initSDK env now;
     if negb (startsWith address "0x") then
       _ ← emit (EvSpinnerFail "Invalid address format");
       emit (EvConsoleError "Error: Address must start with 0x")
     else
       exists_ ← call (EvAccountExists address) (accountExists sdk address);
       _ ← emit (EvSpinnerSucceed "Account check completed");
       if (exists_ : bool) then
         _ ← emit (EvConsoleLog (newline +:+ "Account exists"));
         try_catch
           (accountDetails ← call EvAccountDetail (accountDetail sdk);
            log_account_details accountDetails)
           (λ _, emit (EvConsoleLog
              (newline +:+ "Account exists but could not fetch details. You may need to authenticate first.")))
       else emit (EvConsoleLog (newline +:+ "Account does not exist")))
    (λ error,
     _ ← emit (EvSpinnerFail "Failed to check account");
     report_error error).

(** ** [src/commands/enforcer.ts]: the [login] handler *)

(** The answers of the user to the prompts of [inquirer]; a prompt can throw
    (no terminal). The list prompt offers the values ['siwe'] and
    ['apiKey']. The prompts are input: the trace does not record them. *)
Inductive auth_method : Type :=
  | Siwe
  | ApiKeyMethod.

Class Inquirer : Type := {
  ask_authMethod : outcome auth_method;
  ask_privateKey : outcome string;
  ask_apiKey : outcome string
}.

(** The options of [auth login]. *)
Record LoginOptions : Type := {
  opt_privateKey : option string;
  opt_apiKey : option string;
  opt_apiUri : option string
}.

(** [s.substring(from, to)]: both ends are clamped to the string and swapped
    when out of order. *)
Definition js_substring (from to : Z) (s : string) : string :=
  let len := Z.of_nat (String.length s) in
  let a := Z.max 0 (Z.min from len) in
  let b := Z.max 0 (Z.min to len) in
  let lo := Z.min a b in
  let hi := Z.max a b in
  String.substring (Z.to_nat lo) (Z.to_nat (hi - lo)) s.

(** [`${token.substring(0, 10)}...${token.substring(token.length - 10)}`]. *)
Definition token_preview (token : string) : string :=
  let len := Z.of_nat (String.length token) in
  js_substring 0 10 token +:+ "..." +:+ js_substring (len - 10) len token.

(** [console.log] of the account details in [login]: the address is not
    among them. *)
Definition log_login_details (details : option AccountDetail) : M unit :=
  match details with
  | Some d =>
      _ ← emit (EvConsoleLog (newline +:+ "Account Details:"));
      _ ← emit (EvConsoleLog ("Username: " +:+ username d));
      _ ← emit (EvConsoleLog ("Email: " +:+ email d));
      _ ← emit (EvConsoleLog ("Tenant: " +:+ or_default (tenant d) "N/A"));
      emit (EvConsoleLog ("Role: " +:+ or_default (role d) "N/A"))
  | None => mret tt
  end.

(** The first part of the [login] handler: without [--private-key] and
    without [--api-key] the user is asked for a method and then for the key,
    which is stored in the options. *)
Definition ask_credentials `{prompts : Inquirer} (options : LoginOptions) : M LoginOptions :=
  if negb (truthy_opt (opt_privateKey options)) && negb (truthy_opt (opt_apiKey options)) then
    authMethod ← lift_outcome ask_authMethod;
    match authMethod with
    | Siwe =>
        privateKey ← lift_outcome ask_privateKey;
        mret {| opt_privateKey := Some privateKey;
                opt_apiKey := opt_apiKey options;
                opt_apiUri := opt_apiUri options |}
    | ApiKeyMethod =>
        apiKey ← lift_outcome ask_apiKey;
        mret {| opt_privateKey := opt_privateKey options;
                opt_apiKey := Some apiKey;
                opt_apiUri := opt_apiUri options |}
    end
  else mret options.

(** The [try] block of the branch of [login] that signs in with a private
    key, with its [catch]. *)
Definition login_with_siwe `{rt : JsRuntime} `{service : MeshSdk}
    (env : gmap string string) (now issued saved : Z)
    (privateKey apiKey apiUri : string) : M unit :=
  try_catch
    (mesh ← initSDKWithPrivateKey privateKey (Some apiKey) (Some apiUri) now;
     token ← loginWithSIWE env issued saved mesh;
     _ ← emit (EvSpinnerSucceed "Login successful");
     _ ← emit (EvConsoleLog (newline +:+ "Authenticated with SIWE"));
     _ ← emit (EvConsoleLog
                 ("Account Address: " +:+ address (account (getSigner mesh))));
     _ ← emit (EvConsoleLog ("JWT Token: " +:+ token_preview token));
     try_catch
       (accountDetails ← call EvAccountDetail (accountDetail (SdkMesh mesh));
        log_login_details accountDetails)
       (λ _, emit (EvConsoleLog (newline +:+ "Could not fetch account details"))))
    (λ error,
     _ ← emit (EvSpinnerFail "Login failed");
     report_error error).

(** The [try] block of the branch of [login] that uses an API key, with its
    [catch]; [env] is [process.env] after the two assignments that open the
    block. *)
Definition login_with_api_key `{rt : JsRuntime} `{service : MeshSdk}
    (env : gmap string string) (now : Z) : M unit :=
  try_catch
    (sdk ← initSDK env now;
     try_catch
       (accountDetails ← call EvAccountDetail (accountDetail sdk);
        _ ← emit (EvSpinnerSucceed "Login successful");
        _ ← emit (EvConsoleLog (newline +:+ "Authenticated with API key"));
        log_login_details accountDetails)
       (λ _,
        _ ← emit (EvSpinnerSucceed "API key set, but could not verify account details");
        _ ← emit (EvConsoleLog
                    (newline +:+
                     "API key has been set, but account details could not be fetched."));
        emit (EvConsoleLog "This may be normal if the API key has limited permissions.")))
    (λ error,
     _ ← emit (EvSpinnerFail "Login failed");
     report_error error).

(** The action of [auth login]. [env] is [process.env] when the handler
    starts and the value returned is [process.env] when it ends; [now] is the
    clock reading of the [getToken()] of the initialisation, [issued] and
    [saved] are those of [loginWithSIWE]. *)
Definition login_action `{rt : JsRuntime} `{service : MeshSdk} `{prompts : Inquirer}
    (env : gmap string string) (now issued saved : Z) (options : LoginOptions)
  : M (gmap string string) :=
  try_catch
    (options ← ask_credentials options;
     let apiUri :=
       or_default (opt_apiUri options)
         (or_default (env !! "API_URI") "http://localhost:8080") in
     if truthy_opt (opt_privateKey options) then
       _ ← emit (EvSpinnerStart "Logging in with SIWE...");
       _ ← login_with_siwe env now issued saved
             (default "" (opt_privateKey options))
             (or_default (opt_apiKey options) "") apiUri;
       mret env
     else if truthy_opt (opt_apiKey options) then
       _ ← emit (EvSpinnerStart "Logging in with API key...");
       let env' :=
         <["API_URI" := apiUri]> (<["API_KEY" := default "" (opt_apiKey options)]> env) in
       _ ← login_with_api_key env' now;
       mret env'
     else
       _ ← emit (EvConsoleError "Error: Either private key or API key must be provided");
       mret env)
    (λ error, _ ← report_error error; mret env).

(** ** A small runtime, to run the embedding on concrete inputs

    An implementation of [JsRuntime] for the fragment of JSON with integer
    numbers and with strings whose only escapes are those of the quote and of
    the backslash, and an implementation of [MeshSdk] with fixed answers. *)

Module TestRuntime.

Definition quote_char : ascii := "034"%char.
Definition backslash : ascii := "092"%char.

Fixpoint escape (s : string) : string :=
  match s with
  | EmptyString => EmptyString
  | String c s' =>
      if Ascii.eqb c quote_char || Ascii.eqb c backslash
      then String backslash (String c (escape s'))
      else String c (escape s')
  end.

Definition quoted (s : string) : string :=
  String quote_char (escape s +:+ String quote_char EmptyString).

Fixpoint join (sep : string) (l : list string) : string :=
  match l with
  | [] => ""
  | [s] => s
  | s :: rest => s +:+ sep +:+ join sep rest
  end.

Definition string_of_Z (n : Z) : string :=
  DecimalString.NilZero.string_of_int (Z.to_int n).

Fixpoint stringify (v : json) : string :=
  match v with
  | JNull => "null"
  | JBool b => if b then "true" else "false"
  | JNum n => string_of_Z n
  | JStr s => quoted s
  | JArr l => "[" +:+ join "," (map stringify l) +:+ "]"
  | JObj ms =>
      "{" +:+ join "," (map (λ kv, match kv with
                                   | (k, x) => quoted k +:+ ":" +:+ stringify x
                                   end) ms) +:+ "}"
  end.

Definition is_space (c : ascii) : bool :=
  Ascii.eqb c " " || Ascii.eqb c "010" || Ascii.eqb c "009" || Ascii.eqb c "013".

Definition is_digit (c : ascii) : bool :=
  let n := nat_of_ascii c in (48 <=? n)%nat && (n <=? 57)%nat.

Fixpoint skip_space (s : string) : string :=
  match s with
  | String c s' => if is_space c then skip_space s' else s
  | EmptyString => s
  end.

(** The rest of a string literal, after its opening quote. *)
Fixpoint parse_string_body (s : string) : option (string * string) :=
  match s with
  | EmptyString => None
  | String c s' =>
      if Ascii.eqb c quote_char then Some (EmptyString, s')
      else if Ascii.eqb c backslash then
        match s' with
        | String d s'' =>
            if Ascii.eqb d quote_char || Ascii.eqb d backslash
            then match parse_string_body s'' with
                 | Some (body, rest) => Some (String d body, rest)
                 | None => None
                 end
            else None
        | EmptyString => None
        end
      else match parse_string_body s' with
           | Some (body, rest) => Some (String c body, rest)
           | None => None
           end
  end.

Fixpoint read_digits (acc : Z) (s : string) : Z * string :=
  match s with
  | String c s' =>
      if is_digit c
      then read_digits (10 * acc + Z.of_nat (nat_of_ascii c - 48)) s'
      else (acc, s)
  | EmptyString => (acc, s)
  end.

(** An integer literal: its digits are not empty. *)
Definition parse_int (s : string) : option (Z * string) :=
  match s with
  | String c s' =>
      if Ascii.eqb c "-" then
        match s' with
        | String d _ => if is_digit d
                        then let r := read_digits 0 s' in Some (- r.1, r.2)
                        else None
        | EmptyString => None
        end
      else if is_digit c then Some (read_digits 0 s)
      else None
  | EmptyString => None
  end.

Definition expect (word : string) (v : json) (s : string) : option (json * string) :=
  if startsWith s word then Some (v, slice (String.length word) s) else None.

(** The elements of an array after the first bracket or a comma. *)
Fixpoint parse_elements (value : string → option (json * string)) (n : nat) (s : string)
  : option (list json * string) :=
  match n with
  | O => None
  | S n' =>
      match value s with
      | Some (v, rest) =>
          match skip_space rest with
          | String c rest' =>
              if Ascii.eqb c "," then
                match parse_elements value n' rest' with
                | Some (vs, r) => Some (v :: vs, r)
                | None => None
                end
              else if Ascii.eqb c "]" then Some ([v], rest')
              else None
          | EmptyString => None
          end
      | None => None
      end
  end.

(** The members of an object after the first brace or a comma. *)
Fixpoint parse_members (value : string → option (json * string)) (n : nat) (s : string)
  : option (list (string * json) * string) :=
  match n with
  | O => None
  | S n' =>
      match skip_space s with
      | String q s1 =>
          if Ascii.eqb q quote_char then
            match parse_string_body s1 with
            | Some (key, s2) =>
                match skip_space s2 with
                | String colon s3 =>
                    if Ascii.eqb colon ":" then
                      match value s3 with
                      | Some (v, rest) =>
                          match skip_space rest with
                          | String c rest' =>
                              if Ascii.eqb c "," then
                                match parse_members value n' rest' with
                                | Some (ms, r) => Some ((key, v) :: ms, r)
                                | None => None
                                end
                              else if Ascii.eqb c "}" then Some ([(key, v)], rest')
                              else None
                          | EmptyString => None
                          end
                      | None => None
                      end
                    else None
                | EmptyString => None
                end
            | None => None
            end
          else None
      | EmptyString => None
      end
  end.

(** Assignment to a property: a repeated key keeps its place and takes the
    later value. *)
Fixpoint set_member (key : string) (v : json) (ms : list (string * json))
  : list (string * json) :=
  match ms with
  | [] => [(key, v)]
  | (k, x) :: rest =>
      if String.eqb k key then (k, v) :: rest else (k, x) :: set_member key v rest
  end.

Definition object_of (ms : list (string * json)) : json :=
  JObj (foldl (λ acc kv, set_member kv.1 kv.2 acc) [] ms).

Fixpoint parse_value (fuel : nat) (s : string) : option (json * string) :=
  match fuel with
  | O => None
  | S fuel' =>
      match skip_space s with
      | EmptyString => None
      | String c rest =>
          if Ascii.eqb c "n" then expect "ull" JNull rest
          else if Ascii.eqb c "t" then expect "rue" (JBool true) rest
          else if Ascii.eqb c "f" then expect "alse" (JBool false) rest
          else if Ascii.eqb c quote_char then
            match parse_string_body rest with
            | Some (body, r) => Some (JStr body, r)
            | None => None
            end
          else if Ascii.eqb c "[" then
            match skip_space rest with
            | String d r =>
                if Ascii.eqb d "]" then Some (JArr [], r)
                else match parse_elements (parse_value fuel') fuel' rest with
                     | Some (vs, r') => Some (JArr vs, r')
                     | None => None
                     end
            | EmptyString => None
            end
          else if Ascii.eqb c "{" then
            match skip_space rest with
            | String d r =>
                if Ascii.eqb d "}" then Some (JObj [], r)
                else match parse_members (parse_value fuel') fuel' rest with
                     | Some (ms, r') => Some (object_of ms, r')
                     | None => None
                     end
            | EmptyString => None
            end
          else match parse_int (String c rest) with
               | Some (n, r) => Some (JNum n, r)
               | None => None
               end
      end
  end.

Definition parse (text : string) : option json :=
  match parse_value (S (String.length text)) text with
  | Some (v, rest) =>
      match skip_space rest with
      | EmptyString => Some v
      | _ => None
      end
  | None => None
  end.

(** The number a string of digits converts to; the empty string converts
    to zero. *)
Definition string_to_number (s : string) : option Z :=
  match skip_space s with
  | EmptyString => Some 0
  | s' => match parse_int s' with
          | Some (n, rest) =>
              match skip_space rest with
              | EmptyString => Some n
              | _ => None
              end
          | None => None
          end
  end.

Fixpoint to_string (v : json) : string :=
  match v with
  | JNull => "null"
  | JBool b => if b then "true" else "false"
  | JNum n => string_of_Z n
  | JStr s => s
  | JArr l => join "," (map (λ x, match x with JNull => "" | _ => to_string x end) l)
  | JObj _ => "[object Object]"
  end.

Definition array_to_string (l : list json) : string := to_string (JArr l).

Fixpoint take_host (s : string) : string :=
  match s with
  | EmptyString => EmptyString
  | String c s' =>
      if Ascii.eqb c ":" || Ascii.eqb c "/" then EmptyString
      else String c (take_host s')
  end.

Definition url_hostname (s : string) : option string :=
  if startsWith s "http://" then Some (take_host (slice 7 s))
  else if startsWith s "https://" then Some (take_host (slice 8 s))
  else None.

(** The segments of a path; [cur] is the segment being read. *)
Fixpoint segments (cur : string) (s : string) : list string :=
  let close := if String.eqb cur "" || String.eqb cur "." then [] else [cur] in
  match s with
  | EmptyString => close
  | String c s' =>
      if Ascii.eqb c "/" then close ++ segments "" s'
      else segments (cur +:+ String c EmptyString) s'
  end.

Definition home : path := ["home"; "user"].

Definition resolve (s : string) : path :=
  if startsWith s "/" then segments "" s else (home ++ ["work"]) ++ segments "" s.

Definition runtime : JsRuntime := {|
  homedir := home;
  JSON_parse := parse;
  JSON_stringify := stringify;
  JSON_stringify_pretty := stringify;
  StringToNumber := string_to_number;
  Array_toString := array_to_string;
  URL_hostname := url_hostname;
  path_resolve := resolve
|}.

(** An account is derived from a key that has something after its prefix. *)
Definition derive (key : string) : option Account :=
  if startsWith key "0x" && negb (String.eqb (slice 2 key) "")
  then Some {| address := "0xA" +:+ slice 2 key; publicKey := "0xP" +:+ slice 2 key |}
  else None.

(** A service that accepts every request. *)
Definition accepting : MeshSdk := {|
  privateKeyToAccount := derive;
  requestNonce := λ _ a, Ok ("nonce-" +:+ a);
  signSiWeMessage := λ _ p, Ok ("sign-in " +:+ nonce p, "signature");
  authenticateSiWe := λ _ _ _, Ok "jwt";
  validateAuthorization := λ _ _, Ok (JObj [("allowed", JBool true)]);
  validateAuthorizations := λ _ _, Ok (JArr [JObj [("allowed", JBool true)]]);
  accountExists := λ _ _, Ok true;
  accountDetail := λ _, Throw (ExternalError "401")
|}.

(** A service that refuses the sign-in submission. *)
Definition refusing : MeshSdk := {|
  privateKeyToAccount := derive;
  requestNonce := λ _ a, Ok ("nonce-" +:+ a);
  signSiWeMessage := λ _ p, Ok ("sign-in " +:+ nonce p, "signature");
  authenticateSiWe := λ _ _ _, Throw (ExternalError "401");
  validateAuthorization := λ _ _, Throw (ExternalError "401");
  validateAuthorizations := λ _ _, Throw (ExternalError "401");
  accountExists := λ _ _, Throw (ExternalError "401");
  accountDetail := λ _, Throw (ExternalError "401")
|}.

Definition empty_world : world := World ∅ [].

(** A file system whose only file is the credential file, with this
    content. *)
Definition cached_files (content : string) : gmap path node :=
  <[@TOKEN_FILE runtime := File content]>
    (<[@TOKEN_DIR runtime := Dir]> (<[home := Dir]> (<[["home"] := Dir]> ∅))).

(** A file system whose only file is a request in the working directory. *)
Definition request_files (name content : string) : gmap path node :=
  <[resolve name := File content]>
    (<[home ++ ["work"] := Dir]> (<[home := Dir]> (<[["home"] := Dir]> ∅))).

(** The client of the key ["0x1234"] on sepolia. *)
Definition wallet : UnifiedClient :=
  let acct := {| address := "0xA1234"; publicKey := "0xP1234" |} in
  {| account := acct;
     open := {| pc_chain := sepolia |};
     private := {| wc_account := acct; wc_chain := sepolia |} |}.

Definition mesh : Mesh :=
  MeshSDK_init {| apiUri := DEFAULT_API_URI; apiKey := ""; sdk_version := SDK_VERSION |}
    wallet.

Definition request : json := JObj [("action", JStr "read")].

(** A credential that expires at time 5, and an object with that expiry
    and no token. *)
Definition credential : string := stringify (TokenData "ab" 5).
Definition no_token : json := JObj [("expiresAt", JNum 5)].

Definition only_api_key : gmap string string := {[ "API_KEY" := "k" ]}.
Definition empty_api_key : gmap string string := {[ "API_KEY" := "" ]}.
Definition empty_private_key : gmap string string :=
  <["PRIVATE_KEY" := ""]> {[ "API_KEY" := "k" ]}.

End TestRuntime.

(** Whether a parsed value is a credential: an object whose [token] is a
    string and whose [expiresAt] is a number. *)
Definition is_TokenData (v : json) : bool :=
  match v with
  | JObj members =>
      match lookup_member "token" members, lookup_member "expiresAt" members with
      | Some (JStr _), Some (JNum _) => true
      | _, _ => false
      end
  | _ => false
  end.

(** The calls of [validateAuthorization] in a trace, by their payload. *)
Definition authorization_payloads (tr : list event) : list json :=
  omap (λ e, match e with EvValidateAuthorization v => Some v | _ => None end) tr.

Definition batch_payloads (tr : list event) : list json :=
  omap (λ e, match e with EvValidateAuthorizations v => Some v | _ => None end) tr.

(** The calls of the SDK in a trace, in their order. *)
Definition is_sdk_call (e : event) : bool :=
  match e with
  | EvRequestNonce _ | EvSignSiWeMessage _ | EvAuthenticateSiWe _ _
  | EvValidateAuthorization _ | EvValidateAuthorizations _
  | EvAccountExists _ | EvAccountDetail => true
  | _ => false
  end.

Definition sdk_calls (tr : list event) : list event := List.filter is_sdk_call tr.

(** Code that does not call the SDK: what it adds to the trace holds no call. *)
Definition quiet {A : Type} (m : M A) : Prop :=
  ∀ w, ∃ evs, trace (m w).2 = trace w ++ evs ∧ sdk_calls evs = [].

(** The [expiresAt] a parsed value carries, [undefined] when it has none. *)
Definition expiry_of (v : json) : jsval :=
  match v with
  | JObj members => lookup_member "expiresAt" members
  | _ => None
  end.

(** A credential file that holds no usable credential: it cannot be read, or
    its text is not JSON, or the text parses to a value that is not a
    credential and carries no [expiresAt] above the current time. *)
Inductive malformed_cache `{rt : JsRuntime} (now : Z) : option node → Prop :=
  | cache_unreadable :
      malformed_cache now (Some Dir)
  | cache_not_json text :
      JSON_parse text = None →
      malformed_cache now (Some (File text))
  | cache_not_credential text v :
      JSON_parse text = Some v →
      is_TokenData v = false →
      js_gt (expiry_of v) now = false →
      malformed_cache now (Some (File text)).

(** A key behind its prefix: the key itself when it has the prefix. *)
Definition with_0x (key : string) : string :=
  if startsWith key "0x" then key else "0x" +:+ key.

(** The client [createUnifiedClient] builds for an account, on sepolia. *)
Definition sepolia_client (acct : Account) : UnifiedClient :=
  {| account := acct;
     open := {| pc_chain := sepolia |};
     private := {| wc_account := acct; wc_chain := sepolia |} |}.

(** The request the options of [authorize] select in a file system: the
    parsed text of the file when [--file] is given, else the parsed text of
    [--json] when it is given; [None] when there is no such value. *)
Definition selected_request `{rt : JsRuntime}
    (options : AuthorizeOptions) (fs : gmap path node) : option json :=
  if truthy_opt (opt_file options) then
    match fs !! path_resolve (default "" (opt_file options)) with
    | Some (File text) => JSON_parse text
    | _ => None
    end
  else if truthy_opt (opt_json options) then JSON_parse (default "" (opt_json options))
  else None.

(** The path [--outfile] asks to write, if it asks. *)
Definition outfile_path (outfile : optional_value) : option string :=
  match outfile with
  | Absent => None
  | Bare => Some "tmp/my.json"
  | Given value => if truthy value then Some value else None
  end.

(** ** Relations between the world before and after a run *)

(** Every run of [m] takes a world to one related to it by [R]. *)
Definition steps (R : world → world → Prop) {A : Type} (m : M A) : Prop :=
  ∀ w, R w (m w).2.

(** The file system is as it was. *)
Definition same_files (w w' : world) : Prop := files w' = files w.

(** The trace has grown by events that all satisfy [P]. *)
Definition extends_with (P : event → Prop) (w w' : world) : Prop :=
  ∃ evs, trace w' = trace w ++ evs ∧ Forall P evs.

(** Code that returns, whatever happens inside it. *)
Definition never_throws {A : Type} (m : M A) : Prop :=
  ∀ w, ∃ a, (m w).1 = Ok a.

(** Users at the prompts of [login]. *)
Module TestPrompts.

Definition siwe_user : Inquirer :=
  {| ask_authMethod := Ok Siwe; ask_privateKey := Ok "1234"; ask_apiKey := Ok "k" |}.

Definition api_key_user : Inquirer :=
  {| ask_authMethod := Ok ApiKeyMethod; ask_privateKey := Ok "1234"; ask_apiKey := Ok "k" |}.

Definition no_terminal : Inquirer :=
  {| ask_authMethod := Throw (ExternalError "no terminal");
     ask_privateKey := Throw (ExternalError "no terminal");
     ask_apiKey := Throw (ExternalError "no terminal") |}.

(** Options of [login], environments and inputs of the other handlers. *)
Definition no_options : LoginOptions :=
  {| opt_privateKey := None; opt_apiKey := None; opt_apiUri := None |}.

Definition by_private_key : LoginOptions :=
  {| opt_privateKey := Some "1234"; opt_apiKey := None;
     opt_apiUri := Some "http://other:9090" |}.

Definition by_api_key : LoginOptions :=
  {| opt_privateKey := None; opt_apiKey := Some "k"; opt_apiUri := None |}.

Definition only_private_key : gmap string string := {[ "PRIVATE_KEY" := "1234" ]}.

Definition rejected_private_key : gmap string string :=
  <["API_KEY" := "k"]> {[ "PRIVATE_KEY" := "0x" ]}.

Definition no_url : gmap string string := {[ "API_URI" := "localhost" ]}.

Definition account_1234 : Account :=
  {| address := "0xA1234"; publicKey := "0xP1234" |}.

(** The client [login] creates from the key ["1234"] for a URI. *)
Definition login_mesh (target : string) : Mesh :=
  MeshSDK_init {| apiUri := target; apiKey := ""; sdk_version := SDK_VERSION |}
    TestRuntime.wallet.

Definition lite_client : sdk :=
  SdkLite (MeshSDKLite_init
             {| apiUri := DEFAULT_API_URI; apiKey := "k"; sdk_version := SDK_VERSION |}).

Definition inline_request : AuthorizeOptions :=
  {| opt_file := None; opt_json := Some (TestRuntime.stringify TestRuntime.request);
     opt_outfile := Bare |}.

Definition no_request : AuthorizeOptions :=
  {| opt_file := None; opt_json := None; opt_outfile := Absent |}.

End TestPrompts.

(** * Properties *)

Ltac save_events :=
  repeat (apply List.Forall_cons; [auto|]); apply List.Forall_nil.

Ltac unfold_M :=
  unfold call in *;
  unfold mbind, M_bind, mret, M_ret, throw, try_catch, emit, lift_outcome in *.

Create HintDb quiet.

Section Quiet.
Context {A B : Type}.

Lemma sdk_calls_app tr1 tr2 : sdk_calls (tr1 ++ tr2) = sdk_calls tr1 ++ sdk_calls tr2.
Proof. apply List.filter_app. Qed.

Lemma quiet_ret (a : A) : quiet (mret a).
Proof. intros w. exists []. by rewrite app_nil_r. Qed.

Lemma quiet_throw (e : exn) : quiet (throw e : M A).
Proof. intros w. exists []. by rewrite app_nil_r. Qed.

Lemma quiet_lift (o : outcome A) : quiet (lift_outcome o).
Proof. intros w. exists []. by rewrite app_nil_r. Qed.

Lemma quiet_bind (m : M A) (f : A → M B) :
  quiet m → (∀ a, quiet (f a)) → quiet (m ≫= f).
Proof.
  intros Hm Hf w. unfold mbind, M_bind.
  destruct (Hm w) as (evs1 & Htr1 & Hq1).
  destruct (m w) as [[a|e] w1]; cbn in *.
  - destruct (Hf a w1) as (evs2 & Htr2 & Hq2).
    exists (evs1 ++ evs2). rewrite Htr2, Htr1, sdk_calls_app, Hq1, Hq2.
    by rewrite app_assoc.
  - by exists evs1.
Qed.

Lemma quiet_try_catch (body : M A) (handler : exn → M A) :
  quiet body → (∀ e, quiet (handler e)) → quiet (try_catch body handler).
Proof.
  intros Hm Hf w. unfold try_catch.
  destruct (Hm w) as (evs1 & Htr1 & Hq1).
  destruct (body w) as [[a|e] w1]; cbn in *.
  - by exists evs1.
  - destruct (Hf e w1) as (evs2 & Htr2 & Hq2).
    exists (evs1 ++ evs2). rewrite Htr2, Htr1, sdk_calls_app, Hq1, Hq2.
    by rewrite app_assoc.
Qed.

Lemma quiet_if (b : bool) (m1 m2 : M A) :
  quiet m1 → quiet m2 → quiet (if b then m1 else m2).
Proof. by destruct b. Qed.
End Quiet.

Lemma quiet_emit e : is_sdk_call e = false → quiet (emit e).
Proof. intros He w. exists [e]. cbn. by rewrite He. Qed.

Lemma quiet_existsSync p : quiet (existsSync p).
Proof. intros w. exists []. by rewrite app_nil_r. Qed.

Lemma quiet_readFileSync p : quiet (readFileSync p).
Proof.
  intros w. exists []. rewrite app_nil_r. unfold readFileSync.
  by destruct (files w !! p) as [[|c]|].
Qed.

Lemma quiet_writeFileSync p content : quiet (writeFileSync p content).
Proof.
  intros w. exists [EvWriteFile p content]. split; [|reflexivity].
  unfold writeFileSync. destruct p as [|seg rest]; [reflexivity|].
  destruct (files w !! (seg :: rest)) as [[|c]|]; [reflexivity|..];
    by destruct (parent_is_dir (files w) (seg :: rest)).
Qed.

Lemma quiet_mkdirSync_recursive p : quiet (mkdirSync_recursive p).
Proof.
  intros w. exists [EvMkdir p]. split; [|reflexivity].
  unfold mkdirSync_recursive. by destruct (mkdir_walk [] p (files w)).
Qed.

#[export] Hint Resolve quiet_ret quiet_throw quiet_lift quiet_bind quiet_try_catch
  quiet_if quiet_emit quiet_existsSync quiet_readFileSync quiet_writeFileSync
  quiet_mkdirSync_recursive : quiet.

Section CredentialCache.
Context `{rt : JsRuntime}.

Lemma TOKEN_DIR_not_root : TOKEN_DIR ≠ [].
Proof. unfold TOKEN_DIR, path_join. by destruct homedir. Qed.

Lemma dirname_TOKEN_FILE : dirname TOKEN_FILE = TOKEN_DIR.
Proof. unfold TOKEN_FILE, path_join, dirname. apply removelast_last. Qed.

Lemma TOKEN_FILE_not_root : TOKEN_FILE ≠ [].
Proof. unfold TOKEN_FILE, path_join. by destruct TOKEN_DIR. Qed.

Lemma TOKEN_FILE_longer : (length TOKEN_DIR < length TOKEN_FILE)%nat.
Proof. unfold TOKEN_FILE, path_join. rewrite length_app. simpl. lia. Qed.

(** Reading the cache leaves the world as it is and raises nothing. *)
Lemma getToken_total now w : ∃ r, getToken now w = (Ok r, w).
Proof.
  unfold getToken, existsSync, readFileSync, JSON_parse_call, get_property.
  unfold_M.
  destruct (bool_decide (is_Some (files w !! TOKEN_FILE))); [|eauto].
  destruct (files w !! TOKEN_FILE) as [[|text]|]; eauto.
  destruct (JSON_parse text) as [[| | | | |members]|]; eauto.
  destruct (js_gt _ now); eauto.
Qed.

Lemma getToken_file now fs tr text :
  fs !! TOKEN_FILE = Some (File text) →
  getToken now (World fs tr) =
    match JSON_parse text with
    | Some (JObj members) =>
        if js_gt (lookup_member "expiresAt" members) now
        then (Ok (Some (JObj members)), World fs tr)
        else (Ok None, World fs tr)
    | _ => (Ok None, World fs tr)
    end.
Proof.
  intros Hfile.
  unfold getToken, existsSync, readFileSync, JSON_parse_call, get_property.
  unfold_M. cbn [files]. rewrite Hfile. cbn. rewrite Hfile.
  destruct (JSON_parse text) as [[| | | | |members]|]; try reflexivity.
  by destruct (js_gt (lookup_member "expiresAt" members) now).
Qed.

(** C1. When the credential file parses as an object whose [token] is a
    string and whose [expiresAt] is a number, [getToken] returns that object
    if and only if [expiresAt] is strictly greater than the current time,
    and returns [null] if and only if [expiresAt] is at or before it. *)
Theorem getToken_returns_iff_unexpired now fs tr text members token expiresAt :
  fs !! TOKEN_FILE = Some (File text) →
  JSON_parse text = Some (JObj members) →
  lookup_member "token" members = Some (JStr token) →
  lookup_member "expiresAt" members = Some (JNum expiresAt) →
  ∃ r, getToken now (World fs tr) = (Ok r, World fs tr) ∧
       (r = Some (JObj members) ↔ now < expiresAt) ∧
       (r = None ↔ expiresAt ≤ now).
Proof.
  intros Hfile Hparse _ Hexp.
  rewrite (getToken_file _ _ _ _ Hfile), Hparse.
  unfold js_gt. rewrite Hexp. simpl.
  destruct (Z.ltb_spec now expiresAt).
  - eexists; split; [reflexivity|]. split; split; intros; try done; lia.
  - eexists; split; [reflexivity|]. split; split; intros; try done; lia.
Qed.

Lemma getToken_absent now fs tr :
  fs !! TOKEN_FILE = None → getToken now (World fs tr) = (Ok None, World fs tr).
Proof.
  intros Hnone. unfold getToken, existsSync. unfold_M. cbn [files].
  rewrite Hnone. reflexivity.
Qed.

Lemma getToken_directory now fs tr :
  fs !! TOKEN_FILE = Some Dir → getToken now (World fs tr) = (Ok None, World fs tr).
Proof.
  intros Hdir. unfold getToken, existsSync, readFileSync. unfold_M. cbn [files].
  rewrite Hdir. cbn. rewrite Hdir. reflexivity.
Qed.

(** ** The directories [mkdirSync] creates *)

Lemma mkdir_walk_other above below fs fs' q :
  mkdir_walk above below fs = Ok fs' →
  (length above + length below < length q)%nat →
  fs' !! q = fs !! q.
Proof.
  revert above fs. induction below as [|s below IH]; intros above fs Hwalk Hlen.
  - simpl in Hwalk. by inversion Hwalk.
  - simpl in Hwalk, Hlen.
    assert (Hp : (length (above ++ [s]) + length below < length q)%nat)
      by (rewrite length_app; simpl; lia).
    destruct (fs !! (above ++ [s])) as [[|c]|] eqn:Hlook; [|done|].
    + by apply (IH _ _ Hwalk).
    + rewrite (IH _ _ Hwalk Hp). apply lookup_insert_ne.
      intros Heq. subst q. rewrite length_app in Hlen. simpl in Hlen. lia.
Qed.

Lemma mkdir_walk_dir above below fs fs' :
  mkdir_walk above below fs = Ok fs' → below ≠ [] →
  fs' !! (above ++ below) = Some Dir.
Proof.
  revert above fs. induction below as [|s below IH]; intros above fs Hwalk Hne; [done|].
  simpl in Hwalk.
  destruct below as [|s' below].
  - destruct (fs !! (above ++ [s])) as [[|c]|] eqn:Hlook; [|done|];
      simpl in Hwalk; inversion Hwalk; subst; [done|apply lookup_insert_eq].
  - replace (above ++ s :: s' :: below) with ((above ++ [s]) ++ s' :: below)
      by (by rewrite <- app_assoc).
    destruct (fs !! (above ++ [s])) as [[|c]|] eqn:Hlook; [|done|];
      by apply (IH _ _ Hwalk).
Qed.

Lemma mkdir_walk_ok above below fs :
  (∀ pre c, pre `prefix_of` below → fs !! (above ++ pre) ≠ Some (File c)) →
  ∃ fs', mkdir_walk above below fs = Ok fs'.
Proof.
  revert above fs. induction below as [|s below IH]; intros above fs Hfree.
  - by eexists.
  - simpl.
    assert (Hnext : ∀ fs1 : gmap path node,
               (∀ q, fs1 !! q = fs !! q ∨ fs1 !! q = Some Dir) →
               ∃ fs', mkdir_walk (above ++ [s]) below fs1 = Ok fs').
    { intros fs1 Hsame. apply IH. intros pre c Hpre Hfile.
      destruct (Hsame ((above ++ [s]) ++ pre)) as [Heq|Heq]; [|congruence].
      rewrite Heq in Hfile. rewrite <- app_assoc in Hfile.
      apply (Hfree (s :: pre) c); [|done].
      by apply prefix_cons. }
    destruct (fs !! (above ++ [s])) as [[|c]|] eqn:Hlook.
    + apply Hnext. by left.
    + exfalso. apply (Hfree [s] c); [|done].
      apply prefix_cons, prefix_nil.
    + apply Hnext. intros q.
      destruct (decide (above ++ [s] = q)) as [->|Hne].
      * right. apply lookup_insert_eq.
      * left. by apply lookup_insert_ne.
Qed.

(** ** [saveToken] *)

(** What [saveToken] does in any world: it writes to the file system and
    does nothing else, it leaves the credential in the file when it returns
    and leaves the file as it was when it throws. *)
Lemma saveToken_effects now token ttl w :
  let content := JSON_stringify (TokenData token (now + ttl * 1000)) in
  ∃ r w' writes,
    saveToken now token ttl w = (r, w') ∧
    trace w' = trace w ++ writes ∧
    writes ≠ [] ∧
    Forall (λ e, e = EvMkdir TOKEN_DIR ∨ e = EvWriteFile TOKEN_FILE content) writes ∧
    match r with
    | Ok _ => files w' !! TOKEN_FILE = Some (File content)
    | Throw _ => files w' !! TOKEN_FILE = files w !! TOKEN_FILE
    end.
Proof.
  intros content. destruct w as [fs tr].
  unfold saveToken, existsSync, mkdirSync_recursive, writeFileSync.
  fold content. unfold_M. cbn [files trace].
  pose proof TOKEN_FILE_not_root as Hroot.
  pose proof TOKEN_FILE_longer as Hlonger.
  destruct (bool_decide (is_Some (fs !! TOKEN_DIR))); cbn.
  - destruct TOKEN_FILE as [|seg rest] eqn:Hfile; [done|].
    destruct (fs !! (seg :: rest)) as [[|old]|] eqn:Hlook;
      [|destruct (parent_is_dir fs (seg :: rest))..];
      (eexists _, _, _; split; [reflexivity|]; cbn;
       split; [reflexivity|]; split; [done|]; split; [save_events|]);
      first [apply lookup_insert_eq | done].
  - destruct (mkdir_walk [] TOKEN_DIR fs) as [fs1|e] eqn:Hwalk; cbn.
    + assert (Hsame : fs1 !! TOKEN_FILE = fs !! TOKEN_FILE)
        by (apply (mkdir_walk_other _ _ _ _ _ Hwalk); simpl; lia).
      destruct TOKEN_FILE as [|seg rest] eqn:Hfile; [done|].
      destruct (fs1 !! (seg :: rest)) as [[|old]|] eqn:Hlook;
        [|destruct (parent_is_dir fs1 (seg :: rest))..];
        (eexists _, _, _; split; [reflexivity|]; cbn;
         rewrite <- app_assoc; split; [reflexivity|]; split; [done|];
         split; [save_events|]);
        first [apply lookup_insert_eq | exact Hsame | by rewrite Hlook].
    + eexists _, _, _. split; [reflexivity|]. cbn.
      split; [reflexivity|]. split; [done|]. split; [save_events|done].
Qed.

Lemma writeFileSync_ok p content fs tr :
  fs !! p ≠ Some Dir → dirname p ≠ [] → fs !! dirname p = Some Dir →
  writeFileSync p content (World fs tr) =
    (Ok tt, World (<[p := File content]> fs) (tr ++ [EvWriteFile p content])).
Proof.
  intros Hnotdir Hparent Hdir. unfold writeFileSync, parent_is_dir. cbn [files trace].
  destruct p as [|seg rest]; [done|].
  destruct (dirname (seg :: rest)) as [|d ds] eqn:Hd; [done|].
  rewrite Hdir.
  by destruct (fs !! (seg :: rest)) as [[|old]|].
Qed.


(** C4, as the code has it. A credential file that cannot be read, or whose
    text is not JSON, or whose text parses to a value that is not a
    credential and carries no [expiresAt] above the current time, is read
    as [null] without an error, which is what an absent file is read as. *)
Theorem getToken_malformed_as_absent now fs tr :
  malformed_cache now (fs !! TOKEN_FILE) →
  getToken now (World fs tr) = (Ok None, World fs tr) ∧
  ∀ fs0, fs0 !! TOKEN_FILE = None →
         (getToken now (World fs0 tr)).1 = (getToken now (World fs tr)).1.
Proof.
  intros Hbad.
  assert (Hnull : getToken now (World fs tr) = (Ok None, World fs tr)).
  { inversion Hbad as [Hlook | text Hparse Hlook | text v Hparse Hcred Hgt Hlook];
      symmetry in Hlook.
    - by apply getToken_directory.
    - by rewrite (getToken_file _ _ _ _ Hlook), Hparse.
    - rewrite (getToken_file _ _ _ _ Hlook), Hparse.
      destruct v as [| | | | |members]; try reflexivity.
      simpl in Hgt. by rewrite Hgt. }
  split; [exact Hnull|].
  intros fs0 Habsent. by rewrite Hnull, (getToken_absent _ _ _ Habsent).
Qed.

End CredentialCache.

Section Login.
Context `{rt : JsRuntime} `{service : MeshSdk}.

(** The runs of [loginWithSIWE], by the answers it gets. *)
Lemma loginWithSIWE_cases env issued saved mesh w :
  let signer := address (account (getSigner mesh)) in
  let apiUri := or_default (env !! "API_URI") DEFAULT_API_URI in
  let w0 := World (files w) (trace w ++ [EvRequestNonce signer]) in
  match requestNonce mesh signer with
  | Throw e => loginWithSIWE env issued saved mesh w = (Throw e, w0)
  | Ok n =>
    match URL_hostname apiUri with
    | None => loginWithSIWE env issued saved mesh w = (Throw TypeError, w0)
    | Some d =>
      let params :=
        {| domain := d; siwe_address := signer; uri := apiUri; version := "1";
           chainId := 1; nonce := n; issuedAt := issued |} in
      let w1 := World (files w) (trace w0 ++ [EvSignSiWeMessage params]) in
      match signSiWeMessage mesh params with
      | Throw e => loginWithSIWE env issued saved mesh w = (Throw e, w1)
      | Ok signed =>
        let w2 := World (files w)
                    (trace w1 ++ [EvAuthenticateSiWe signed.1 signed.2]) in
        match authenticateSiWe mesh signed.1 signed.2 with
        | Throw e => loginWithSIWE env issued saved mesh w = (Throw e, w2)
        | Ok token =>
            loginWithSIWE env issued saved mesh w =
              match saveToken saved token 2592000 w2 with
              | (Ok _, w3) => (Ok token, w3)
              | (Throw e, w3) => (Throw e, w3)
              end
        end
      end
    end
  end.
Proof.
  intros signer apiUri w0.
  unfold loginWithSIWE, URL_hostname_call. fold signer apiUri.
  unfold_M. cbn [files trace].
  destruct (requestNonce mesh signer) as [n|e]; [|reflexivity].
  destruct (URL_hostname apiUri) as [d|]; [|reflexivity].
  cbn [files trace].
  destruct (signSiWeMessage mesh _) as [signed|e]; [|reflexivity].
  cbn [files trace].
  destruct (authenticateSiWe mesh signed.1 signed.2) as [token|e]; [|reflexivity].
  cbn [files trace]. change (30 * 24 * 60 * 60) with 2592000.
  by destruct (saveToken saved token 2592000 _) as [[[]|e] w3].
Qed.

(** After a login that returned, the file holds the token it returned and an
    expiry thirty days after the clock reading of the save. *)
Lemma loginWithSIWE_saved env issued saved mesh w token w' :
  loginWithSIWE env issued saved mesh w = (Ok token, w') →
  files w' !! TOKEN_FILE =
    Some (File (JSON_stringify (TokenData token (saved + 2592000000)))).
Proof.
  intros Hrun. pose proof (loginWithSIWE_cases env issued saved mesh w) as Hcases.
  cbv zeta in Hcases.
  destruct (requestNonce mesh _) as [n|e]; [|congruence].
  destruct (URL_hostname _) as [d|]; [|congruence].
  destruct (signSiWeMessage mesh _) as [signed|e]; [|congruence].
  destruct (authenticateSiWe mesh _ _) as [tok|e]; [|congruence].
  rewrite Hrun in Hcases.
  destruct (saveToken_effects saved tok 2592000
              (World (files w)
                 (((trace w ++ [EvRequestNonce (address (account (getSigner mesh)))])
                   ++ [EvSignSiWeMessage
                         {| domain := d;
                            siwe_address := address (account (getSigner mesh));
                            uri := or_default (env !! "API_URI") DEFAULT_API_URI;
                            version := "1"; chainId := 1; nonce := n;
                            issuedAt := issued |}])
                  ++ [EvAuthenticateSiWe signed.1 signed.2])))
    as (r & w3 & writes & Hsave & _ & _ & _ & Hfile).
  cbn [files trace] in Hcases. rewrite Hsave in Hcases.
  destruct r as [[]|e]; [|congruence].
  inversion Hcases; subst. exact Hfile.
Qed.

(** C2. After [loginWithSIWE] has returned token [t], a read of the cache at
    any time strictly before the stored expiry (the clock reading of the save
    plus thirty days) returns the saved pair, whose token is exactly [t], and
    leaves the cache as it is for the reads that follow; the codec is
    assumed to read back the credential it wrote. *)
Theorem login_then_getToken env issued saved mesh w token w' now tr :
  loginWithSIWE env issued saved mesh w = (Ok token, w') →
  JSON_parse (JSON_stringify (TokenData token (saved + 2592000000))) =
    Some (TokenData token (saved + 2592000000)) →
  now < saved + 2592000000 →
  getToken now (World (files w') tr) =
    (Ok (Some (TokenData token (saved + 2592000000))), World (files w') tr) ∧
  lookup_member "token" [("token", JStr token); ("expiresAt", JNum (saved + 2592000000))]
    = Some (JStr token).
Proof.
  intros Hrun Hcodec Hnow. split; [|reflexivity].
  rewrite (getToken_file _ _ _ _ (loginWithSIWE_saved _ _ _ _ _ _ _ Hrun)), Hcodec.
  unfold TokenData, js_gt. cbn.
  by rewrite (proj2 (Z.ltb_lt _ _) Hnow).
Qed.



(** C10. Whatever client signs, on whatever chain, the message
    [loginWithSIWE] asks it to sign has chain id 1 and version ["1"], and
    its domain is the host name of [API_URI], or of the default URI when
    that variable is unset or empty; the client [initSDKWithPrivateKey]
    builds is on sepolia, whose chain id is 11155111. *)
Theorem siwe_message_constants env issued saved mesh fs params :
  EvSignSiWeMessage params ∈
    trace (loginWithSIWE env issued saved mesh (World fs [])).2 →
  chainId params = 1 ∧
  version params = "1" ∧
  URL_hostname (or_default (env !! "API_URI") DEFAULT_API_URI) = Some (domain params) ∧
  chainId params ≠ chain_id sepolia ∧
  ∀ key ak apiUri now w w',
    initSDKWithPrivateKey key ak apiUri now w = (Ok mesh, w') →
    wc_chain (private (getSigner mesh)) = sepolia.
Proof.
  intros Hin.
  assert (Hparams : chainId params = 1 ∧ version params = "1" ∧
            URL_hostname (or_default (env !! "API_URI") DEFAULT_API_URI)
              = Some (domain params)).
  { pose proof (loginWithSIWE_cases env issued saved mesh (World fs [])) as Hcases.
    cbv zeta in Hcases. cbn [files trace app] in Hcases.
    destruct (requestNonce mesh _) as [n|e];
      [|rewrite Hcases in Hin; cbn in Hin; set_solver].
    destruct (URL_hostname _) as [d|] eqn:Hhost;
      [|rewrite Hcases in Hin; cbn in Hin; set_solver].
    match type of Hcases with
    | context [signSiWeMessage mesh ?p] => set (asked := p) in *
    end.
    assert (Hasked : params = asked); [|by subst params].
    destruct (signSiWeMessage mesh asked) as [[message signature]|e];
      [|rewrite Hcases in Hin; cbn in Hin; set_solver].
    cbn [fst snd] in Hcases.
    destruct (authenticateSiWe mesh message signature) as [token|e];
      [|rewrite Hcases in Hin; cbn in Hin; set_solver].
    destruct (saveToken_effects saved token 2592000
                (World fs [EvRequestNonce (address (account (getSigner mesh)));
                           EvSignSiWeMessage asked;
                           EvAuthenticateSiWe message signature]))
      as (r & w3 & writes & Hsave & Htrace & _ & Hwrites & _).
    rewrite Hsave in Hcases. cbn [trace] in Htrace.
    assert (Hin3 : EvSignSiWeMessage params ∈ trace w3)
      by (rewrite Hcases in Hin; by destruct r as [[]|e]).
    rewrite Htrace in Hin3.
    apply elem_of_app in Hin3 as [Hin3|Hin3]; [set_solver|].
    rewrite List.Forall_forall in Hwrites.
    apply list_elem_of_In in Hin3.
    by destruct (Hwrites _ Hin3). }
  destruct Hparams as (Hchain & Hversion & Hdomain).
  repeat split; try done.
  - by rewrite Hchain.
  - intros key ak apiUri now w w' Hinit.
    unfold initSDKWithPrivateKey, createUnifiedClient in Hinit.
    unfold_M.
    destruct (negb (truthy key)); [done|].
    destruct (privateKeyToAccount _) as [acct|]; [|done].
    destruct (getToken_total now w) as [tokenData Htoken].
    cbn in Hinit. rewrite Htoken in Hinit.
    destruct tokenData as [data|]; [|by inversion Hinit].
    destruct (json_truthy data); [|by inversion Hinit].
    cbn in Hinit. unfold get_property in Hinit.
    by destruct data; inversion Hinit.
Qed.

End Login.

Section Initialisation.
Context `{rt : JsRuntime} `{service : MeshSdk}.

Lemma createUnifiedClient_prefix key chain :
  startsWith key "0x" = false →
  createUnifiedClient key chain = createUnifiedClient ("0x" +:+ key) chain.
Proof. intros Hplain. unfold createUnifiedClient. rewrite Hplain. reflexivity. Qed.

(** [initSDKWithPrivateKey] writes nothing; it prints at most the notice
    about the cached token, and the only error of this code it can raise is
    the one about an empty key. *)
Lemma initSDKWithPrivateKey_effects key ak apiUri now fs tr :
  ∃ r logs,
    initSDKWithPrivateKey key ak apiUri now (World fs tr) = (r, World fs (tr ++ logs)) ∧
    (logs = [] ∨ logs = [EvConsoleLog "Using existing token"]) ∧
    match r with
    | Ok _ => truthy key = true
    | Throw e =>
        (e = Error "Private key is required" ∧ truthy key = false) ∨
        (e = ExternalError "privateKeyToAccount" ∧ truthy key = true)
    end.
Proof.
  unfold initSDKWithPrivateKey, createUnifiedClient. unfold_M.
  destruct (truthy key); cbn.
  2:{ exists (Throw (Error "Private key is required")), [].
      rewrite app_nil_r. auto. }
  destruct (privateKeyToAccount _) as [acct|].
  2:{ exists (Throw (ExternalError "privateKeyToAccount")), [].
      rewrite app_nil_r. auto 6. }
  destruct (getToken_total now (World fs tr)) as [tokenData Htoken].
  rewrite Htoken.
  destruct tokenData as [data|].
  2:{ eexists (Ok _), []. rewrite app_nil_r. auto. }
  unfold get_property.
  destruct data as [|b|n|s|elements|members];
    [|destruct b|destruct n|destruct s| |]; cbn;
    first [ by eexists (Ok _), [_]; auto
          | eexists (Ok _), []; rewrite app_nil_r; by auto ].
Qed.

(** [initSDK] writes nothing and calls nothing: it prints at most the
    notice about the cached token. *)
Lemma initSDK_effects env now fs tr :
  ∃ r logs,
    initSDK env now (World fs tr) = (r, World fs (tr ++ logs)) ∧
    (logs = [] ∨ logs = [EvConsoleLog "Using existing token"]).
Proof.
  unfold initSDK, initSDKWithApiKey.
  destruct (truthy_opt (env !! "API_KEY") && negb (truthy_opt (env !! "PRIVATE_KEY"))).
  - unfold_M.
    destruct (negb (truthy (default "" (env !! "API_KEY")))); cbn;
      [eexists (Throw _), []|eexists (Ok _), []]; rewrite app_nil_r; auto.
  - destruct (truthy_opt (env !! "PRIVATE_KEY")).
    + destruct (initSDKWithPrivateKey_effects
                  (default "" (env !! "PRIVATE_KEY"))
                  (Some (or_default (env !! "API_KEY") ""))
                  (Some (or_default (env !! "API_URI") DEFAULT_API_URI)) now fs tr)
        as (r & logs & Hrun & Hlogs & _).
      unfold_M. rewrite Hrun.
      destruct r; [eexists (Ok _), logs|eexists (Throw _), logs]; auto.
    + unfold_M. eexists (Throw _), []. rewrite app_nil_r. auto.
Qed.

(** C8, as the code has it. A variable that is unset or empty is not
    provided. [initSDK] raises its error about the missing credentials if
    and only if neither variable is provided. When [PRIVATE_KEY] is provided
    it runs [initSDKWithPrivateKey], also when [API_KEY] is provided too; it
    runs [initSDKWithApiKey], and then returns the light client, if and only
    if [API_KEY] is provided and [PRIVATE_KEY] is not. *)
Theorem initSDK_dispatch env now w :
  let apiKey := env !! "API_KEY" in
  let privateKey := env !! "PRIVATE_KEY" in
  let apiUri := or_default (env !! "API_URI") DEFAULT_API_URI in
  ((initSDK env now w).1 = Throw (Error missing_credentials) ↔
     truthy_opt apiKey = false ∧ truthy_opt privateKey = false) ∧
  (truthy_opt privateKey = true →
     initSDK env now w =
       (mesh ← initSDKWithPrivateKey (default "" privateKey)
                 (Some (or_default apiKey "")) (Some apiUri) now;
        mret (SdkMesh mesh)) w) ∧
  (truthy_opt apiKey = true ∧ truthy_opt privateKey = false →
     initSDK env now w =
       (lite ← initSDKWithApiKey (default "" apiKey) (Some apiUri);
        mret (SdkLite lite)) w) ∧
  ((∃ lite, (initSDK env now w).1 = Ok (SdkLite lite)) ↔
     truthy_opt apiKey = true ∧ truthy_opt privateKey = false).
Proof.
  intros apiKey privateKey apiUri. destruct w as [fs tr].
  assert (Hprivate : truthy_opt privateKey = true →
            initSDK env now (World fs tr) =
              (mesh ← initSDKWithPrivateKey (default "" privateKey)
                        (Some (or_default apiKey "")) (Some apiUri) now;
               mret (SdkMesh mesh)) (World fs tr)).
  { intros Hpk. unfold initSDK. fold apiKey privateKey apiUri.
    by rewrite Hpk, andb_false_r. }
  assert (Hlight : truthy_opt apiKey = true ∧ truthy_opt privateKey = false →
            initSDK env now (World fs tr) =
              (lite ← initSDKWithApiKey (default "" apiKey) (Some apiUri);
               mret (SdkLite lite)) (World fs tr)).
  { intros [Hak Hpk]. unfold initSDK. fold apiKey privateKey apiUri.
    by rewrite Hak, Hpk. }
  assert (Hnone : truthy_opt apiKey = false → truthy_opt privateKey = false →
            initSDK env now (World fs tr) =
              (Throw (Error missing_credentials), World fs tr)).
  { intros Hak Hpk. unfold initSDK. fold apiKey privateKey apiUri.
    by rewrite Hak, Hpk. }
  split; [|split; [exact Hprivate|split; [exact Hlight|]]].
  - (* the error about the missing credentials *)
    destruct (truthy_opt privateKey) eqn:Hpk.
    + rewrite Hprivate by done. unfold mbind, M_bind.
      destruct (initSDKWithPrivateKey_effects (default "" privateKey)
                  (Some (or_default apiKey "")) (Some apiUri) now fs tr)
        as (r & logs & Hrun & _ & Hr).
      rewrite Hrun. split; [|by intros [_ ?]].
      destruct r as [mesh|e]; cbn; [done|].
      intros [= ->]. destruct Hr as [[Hr _]|[Hr _]]; discriminate Hr.
    + destruct (truthy_opt apiKey) eqn:Hak.
      * rewrite Hlight by done. unfold initSDKWithApiKey.
        assert (Hkey : truthy (default "" apiKey) = true) by (by destruct apiKey).
        rewrite Hkey. cbn. split; [done|by intros [? _]].
      * by rewrite Hnone.
  - (* the light client *)
    destruct (truthy_opt privateKey) eqn:Hpk.
    + rewrite Hprivate by done. unfold mbind, M_bind.
      destruct (initSDKWithPrivateKey_effects (default "" privateKey)
                  (Some (or_default apiKey "")) (Some apiUri) now fs tr)
        as (r & logs & Hrun & _ & _).
      rewrite Hrun. split; [|by intros [_ ?]].
      intros [lite Hlite]. by destruct r.
    + destruct (truthy_opt apiKey) eqn:Hak.
      * rewrite Hlight by done. unfold initSDKWithApiKey.
        assert (Hkey : truthy (default "" apiKey) = true) by (by destruct apiKey).
        rewrite Hkey. cbn. split; [done|]. intros _. eauto.
      * rewrite Hnone by done. cbn. split; [by intros [lite ?]|by intros [? _]].
Qed.

(** C9. For a key that does not begin with ["0x"], [createUnifiedClient]
    does the same with the key and with the key behind ["0x"]: the account
    is derived from the key behind ["0x"] in both cases. So whenever
    [initSDKWithPrivateKey] builds a client from the key it builds the same
    from the prefixed key, and for a key that is not empty the two runs are
    the same. *)
Theorem private_key_prefix_invariant key chain w :
  startsWith key "0x" = false →
  createUnifiedClient key chain w = createUnifiedClient ("0x" +:+ key) chain w ∧
  (∀ acct, privateKeyToAccount ("0x" +:+ key) = Some acct →
           ∃ w1 w2 client1 client2,
             createUnifiedClient key chain w = (Ok client1, w1) ∧
             createUnifiedClient ("0x" +:+ key) chain w = (Ok client2, w2) ∧
             account client1 = acct ∧ account client2 = acct) ∧
  (∀ ak apiUri now mesh w',
     initSDKWithPrivateKey key ak apiUri now w = (Ok mesh, w') →
     initSDKWithPrivateKey ("0x" +:+ key) ak apiUri now w = (Ok mesh, w')) ∧
  (key ≠ "" →
   ∀ ak apiUri now,
     initSDKWithPrivateKey key ak apiUri now w =
     initSDKWithPrivateKey ("0x" +:+ key) ak apiUri now w).
Proof.
  intros Hplain.
  pose proof (createUnifiedClient_prefix key chain Hplain) as Hclient.
  assert (Hinit : truthy key = true → ∀ ak apiUri now,
            initSDKWithPrivateKey key ak apiUri now w =
            initSDKWithPrivateKey ("0x" +:+ key) ak apiUri now w).
  { intros Hkey ak apiUri now. unfold initSDKWithPrivateKey.
    rewrite Hkey, (createUnifiedClient_prefix key None Hplain). reflexivity. }
  split; [by rewrite Hclient|].
  split.
  - intros acct Hderive. rewrite <- Hclient.
    unfold createUnifiedClient. rewrite Hplain, Hderive. unfold_M.
    by eexists _, _, _, _.
  - split.
    + intros ak apiUri now mesh w' Hrun.
      destruct (truthy key) eqn:Hkey; [by rewrite <- Hinit|].
      unfold initSDKWithPrivateKey in Hrun. by rewrite Hkey in Hrun.
    + intros Hkey. apply Hinit. by destruct key.
Qed.

End Initialisation.

Section Commands.
Context `{rt : JsRuntime} `{service : MeshSdk}.

Lemma quiet_save_response options response : quiet (save_response options response).
Proof.
  unfold save_response.
  apply quiet_if; [|apply quiet_ret].
  apply quiet_bind; [apply quiet_existsSync|]. intros dir_exists.
  apply quiet_bind; [apply quiet_if; auto with quiet|]. intros _.
  apply quiet_bind; [apply quiet_writeFileSync|]. intros _.
  by apply quiet_emit.
Qed.

Lemma payloads_quiet evs :
  sdk_calls evs = [] →
  authorization_payloads evs = [] ∧ batch_payloads evs = [].
Proof.
  induction evs as [|e evs IH]; [done|].
  unfold sdk_calls. cbn.
  destruct e; cbn; try discriminate; exact IH.
Qed.

(** C7. When the address does not start with ["0x"] the handler returns
    after reporting a failure, and it has called nothing of the SDK: either
    [initSDK] succeeded and the address was refused, or [initSDK] threw and
    that error was reported; the file system is as it was. *)
Theorem account_exists_rejects_unprefixed env now address fs :
  startsWith address "0x" = false →
  ∃ logs report,
    account_exists_action env now address (World fs []) =
      (Ok tt,
       World fs ([EvSpinnerStart "Checking if account exists..."] ++ logs ++ report)) ∧
    (logs = [] ∨ logs = [EvConsoleLog "Using existing token"]) ∧
    (report = [EvSpinnerFail "Invalid address format";
               EvConsoleError "Error: Address must start with 0x"] ∨
     ∃ e, report = [EvSpinnerFail "Failed to check account"; EvReportError e]) ∧
    sdk_calls ([EvSpinnerStart "Checking if account exists..."] ++ logs ++ report) = [] ∧
    ∀ a, EvAccountExists a ∉
           [EvSpinnerStart "Checking if account exists..."] ++ logs ++ report.
Proof.
  intros Hplain.
  destruct (initSDK_effects env now fs [EvSpinnerStart "Checking if account exists..."])
    as (r & logs & Hrun & Hlogs).
  unfold account_exists_action. rewrite Hplain. unfold_M. cbn [files trace app negb].
  rewrite Hrun.
  destruct r as [client|e]; cbn [files trace].
  - exists logs, [EvSpinnerFail "Invalid address format";
                   EvConsoleError "Error: Address must start with 0x"].
    destruct Hlogs as [-> | ->];
      (split; [reflexivity|]; split; [auto|]; split; [by left|]);
      (split; [reflexivity|]; set_solver).
  - exists logs, [EvSpinnerFail "Failed to check account"; EvReportError e].
    destruct Hlogs as [-> | ->];
      (split; [reflexivity|]; split; [auto|]; split; [by right; exists e|]);
      (split; [reflexivity|]; set_solver).
Qed.

Lemma read_request_file file text v json outfile w :
  truthy file = true →
  files w !! path_resolve file = Some (File text) →
  JSON_parse text = Some v →
  read_request {| opt_file := Some file; opt_json := json; opt_outfile := outfile |} w
    = (Ok (Some v), w).
Proof.
  intros Hfile Hlook Hparse.
  unfold read_request, readFileSync, JSON_parse_call. cbn [opt_file truthy_opt default].
  rewrite Hfile. unfold_M. cbn. by rewrite Hlook, Hparse.
Qed.

Lemma read_request_json inline v outfile w :
  truthy inline = true →
  JSON_parse inline = Some v →
  read_request {| opt_file := None; opt_json := Some inline; opt_outfile := outfile |} w
    = (Ok (Some v), w).
Proof.
  intros Hinline Hparse.
  unfold read_request, JSON_parse_call.
  cbn [opt_file opt_json truthy_opt default].
  rewrite Hinline. unfold_M. cbn. by rewrite Hparse.
Qed.

(** A handler that has read request [v] passes [v], and nothing else, to
    [validateAuthorization], once, if [initSDK] returns. *)
Lemma authorize_action_payload env now options fs v :
  (∀ tr, read_request options (World fs tr) = (Ok (Some v), World fs tr)) →
  authorization_payloads (trace (authorize_action env now options (World fs [])).2) =
    match (initSDK env now (World fs [EvSpinnerStart "Validating authorization..."])).1 with
    | Ok _ => [v]
    | Throw _ => []
    end.
Proof.
  intros Hread.
  destruct (initSDK_effects env now fs [EvSpinnerStart "Validating authorization..."])
    as (r & logs & Hrun & Hlogs).
  unfold authorize_action, report_error. unfold_M. cbn [files trace app].
  rewrite Hread, Hrun. cbn [fst].
  destruct r as [client|e]; cbn [files trace];
    [|by destruct Hlogs as [-> | ->]].
  destruct (validateAuthorization client v) as [response|e]; cbn [files trace];
    [|by destruct Hlogs as [-> | ->]].
  match goal with
  | |- context [save_response options response ?w] =>
      destruct (quiet_save_response options response w) as (evs & Htrace & Hquiet);
      destruct (save_response options response w) as [[[]|e] w'] eqn:Hsave
  end; cbn [snd trace files] in *; rewrite Htrace;
    unfold authorization_payloads; rewrite !omap_app;
    fold (authorization_payloads evs);
    rewrite (proj1 (payloads_quiet _ Hquiet));
    by destruct Hlogs as [-> | ->].
Qed.

Lemma authorize_batch_action_payload env now options fs v :
  (∀ tr, read_request options (World fs tr) = (Ok (Some v), World fs tr)) →
  batch_payloads (trace (authorize_batch_action env now options (World fs [])).2) =
    match (initSDK env now
             (World fs [EvSpinnerStart "Validating batch authorization..."])).1 with
    | Ok _ => [v]
    | Throw _ => []
    end.
Proof.
  intros Hread.
  destruct (initSDK_effects env now fs
              [EvSpinnerStart "Validating batch authorization..."])
    as (r & logs & Hrun & Hlogs).
  unfold authorize_batch_action, report_error. unfold_M. cbn [files trace app].
  rewrite Hread, Hrun. cbn [fst].
  destruct r as [client|e]; cbn [files trace];
    [|by destruct Hlogs as [-> | ->]].
  destruct (validateAuthorizations client v) as [response|e]; cbn [files trace];
    [|by destruct Hlogs as [-> | ->]].
  match goal with
  | |- context [save_response options response ?w] =>
      destruct (quiet_save_response options response w) as (evs & Htrace & Hquiet);
      destruct (save_response options response w) as [[[]|e] w'] eqn:Hsave
  end; cbn [snd trace files] in *; rewrite Htrace;
    unfold batch_payloads; rewrite !omap_app;
    fold (batch_payloads evs);
    rewrite (proj2 (payloads_quiet _ Hquiet));
    by destruct Hlogs as [-> | ->].
Qed.

(** C6. When the file given to [--file] holds a text and [--json] is given
    a text that both parse to the same value, the two runs of [authorize]
    are the same run, and the payload passed to [validateAuthorization], if
    [initSDK] returns so that the call is made, is that value; the same
    holds of [authorize-batch] and [validateAuthorizations]. The file has a
    name, and the empty text is not JSON. *)
Theorem authorize_file_and_json_agree env now fs file text inline v outfile :
  JSON_parse "" = None →
  file ≠ "" →
  fs !! path_resolve file = Some (File text) →
  JSON_parse text = Some v →
  JSON_parse inline = Some v →
  let by_file := {| opt_file := Some file; opt_json := None; opt_outfile := outfile |} in
  let by_json := {| opt_file := None; opt_json := Some inline; opt_outfile := outfile |} in
  (authorize_action env now by_file (World fs []) =
     authorize_action env now by_json (World fs []) ∧
   authorization_payloads (trace (authorize_action env now by_file (World fs [])).2) =
     match (initSDK env now (World fs [EvSpinnerStart "Validating authorization..."])).1 with
     | Ok _ => [v]
     | Throw _ => []
     end) ∧
  (authorize_batch_action env now by_file (World fs []) =
     authorize_batch_action env now by_json (World fs []) ∧
   batch_payloads (trace (authorize_batch_action env now by_file (World fs [])).2) =
     match (initSDK env now
              (World fs [EvSpinnerStart "Validating batch authorization..."])).1 with
     | Ok _ => [v]
     | Throw _ => []
     end).
Proof.
  intros Hempty Hname Hlook Hparse Hparse' by_file by_json.
  assert (Hfile : truthy file = true) by (by destruct file).
  assert (Hinline : truthy inline = true).
  { destruct inline; [|done]. by rewrite Hempty in Hparse'. }
  assert (Hread_file : ∀ tr, read_request by_file (World fs tr) = (Ok (Some v), World fs tr))
    by (intros tr; by apply (read_request_file file text)).
  assert (Hread_json : ∀ tr, read_request by_json (World fs tr) = (Ok (Some v), World fs tr))
    by (intros tr; by apply read_request_json).
  split; split.
  - unfold authorize_action. unfold_M. cbn [files trace app].
    by rewrite Hread_file, Hread_json.
  - by apply authorize_action_payload.
  - unfold authorize_batch_action. unfold_M. cbn [files trace app].
    by rewrite Hread_file, Hread_json.
  - by apply authorize_batch_action_payload.
Qed.

End Commands.

(** * The properties on concrete inputs *)

Section Examples.
Import TestRuntime.
Local Existing Instance runtime.

Lemma getToken_returns_iff_unexpired_witness :
  ∃ r, getToken 3 (World (cached_files credential) []) =
         (Ok r, World (cached_files credential) []) ∧
       (r = Some (JObj [("token", JStr "ab"); ("expiresAt", JNum 5)]) ↔ 3 < 5) ∧
       (r = None ↔ 5 ≤ 3).
Proof.
  apply (getToken_returns_iff_unexpired 3 (cached_files credential) [] credential
           [("token", JStr "ab"); ("expiresAt", JNum 5)] "ab" 5).
  - apply lookup_insert_eq.
  - vm_compute. reflexivity.
  - reflexivity.
  - reflexivity.
Defined.

Lemma login_then_getToken_witness :
  getToken 5000
    (World (files (loginWithSIWE (service := accepting) ∅ 1000 2000 mesh empty_world).2) [])
  = (Ok (Some (TokenData "jwt" (2000 + 2592000000))),
     World (files (loginWithSIWE (service := accepting) ∅ 1000 2000 mesh empty_world).2) [])
  ∧ lookup_member "token"
      [("token", JStr "jwt"); ("expiresAt", JNum (2000 + 2592000000))]
    = Some (JStr "jwt").
Proof.
  apply (login_then_getToken (service := accepting) ∅ 1000 2000 mesh empty_world "jwt"
           (loginWithSIWE (service := accepting) ∅ 1000 2000 mesh empty_world).2
           5000 []).
  - vm_compute. reflexivity.
  - vm_compute. reflexivity.
  - lia.
Defined.


Lemma getToken_malformed_as_absent_witness :
  getToken 3 (World (cached_files "not json") []) =
    (Ok None, World (cached_files "not json") []) ∧
  ∀ fs0, fs0 !! TOKEN_FILE = None →
         (getToken 3 (World fs0 [])).1 =
         (getToken 3 (World (cached_files "not json") [])).1.
Proof.
  apply (getToken_malformed_as_absent 3 (cached_files "not json") []).
  unfold cached_files. rewrite lookup_insert_eq.
  apply cache_not_json. reflexivity.
Defined.

(** C4, as it is stated, fails: an object with an [expiresAt] above the
    current time and no [token] is not a credential, and it is returned,
    where an absent file gives [null]. *)
Lemma getToken_returns_object_without_token :
  JSON_parse (stringify no_token) = Some no_token ∧
  is_TokenData no_token = false ∧
  (getToken 3 (World (cached_files (stringify no_token)) [])).1 = Ok (Some no_token) ∧
  (getToken 3 (World ∅ [])).1 = Ok None.
Proof. vm_compute. done. Qed.

(** C8, as it is stated, fails: with [API_KEY] set to the empty string and
    [PRIVATE_KEY] unset, [initSDK] throws although a variable is set; with
    [PRIVATE_KEY] set to the empty string and [API_KEY] set to a key, it
    takes the path of the API key although [PRIVATE_KEY] is set. *)
Lemma initSDK_empty_variable_counts_as_unset :
  (is_Some (empty_api_key !! "API_KEY") ∧
   (initSDK (service := accepting) empty_api_key 0 empty_world).1
     = Throw (Error missing_credentials)) ∧
  (is_Some (empty_private_key !! "PRIVATE_KEY") ∧
   ∃ lite, (initSDK (service := accepting) empty_private_key 0 empty_world).1
             = Ok (SdkLite lite)).
Proof.
  split; split.
  - by exists "".
  - vm_compute. reflexivity.
  - by exists "".
  - eexists. vm_compute. reflexivity.
Qed.

Lemma authorize_file_and_json_agree_witness :
  let by_file := {| opt_file := Some "req.json"; opt_json := None; opt_outfile := Bare |} in
  let by_json := {| opt_file := None; opt_json := Some (" " +:+ stringify request);
                    opt_outfile := Bare |} in
  let fs := request_files "req.json" (stringify request) in
  (authorize_action (service := accepting) only_api_key 0 by_file (World fs []) =
     authorize_action (service := accepting) only_api_key 0 by_json (World fs []) ∧
   authorization_payloads
     (trace (authorize_action (service := accepting) only_api_key 0 by_file (World fs [])).2) =
     match (initSDK (service := accepting) only_api_key 0
              (World fs [EvSpinnerStart "Validating authorization..."])).1 with
     | Ok _ => [request]
     | Throw _ => []
     end) ∧
  (authorize_batch_action (service := accepting) only_api_key 0 by_file (World fs []) =
     authorize_batch_action (service := accepting) only_api_key 0 by_json (World fs []) ∧
   batch_payloads
     (trace (authorize_batch_action (service := accepting) only_api_key 0 by_file
               (World fs [])).2) =
     match (initSDK (service := accepting) only_api_key 0
              (World fs [EvSpinnerStart "Validating batch authorization..."])).1 with
     | Ok _ => [request]
     | Throw _ => []
     end).
Proof.
  apply (authorize_file_and_json_agree (service := accepting) only_api_key 0
           (request_files "req.json" (stringify request)) "req.json"
           (stringify request) (" " +:+ stringify request) request Bare).
  - reflexivity.
  - done.
  - apply lookup_insert_eq.
  - vm_compute. reflexivity.
  - vm_compute. reflexivity.
Defined.

Lemma account_exists_rejects_unprefixed_witness :
  ∃ logs report,
    account_exists_action (service := accepting) only_api_key 0 "abc" (World ∅ []) =
      (Ok tt,
       World ∅ ([EvSpinnerStart "Checking if account exists..."] ++ logs ++ report)) ∧
    (logs = [] ∨ logs = [EvConsoleLog "Using existing token"]) ∧
    (report = [EvSpinnerFail "Invalid address format";
               EvConsoleError "Error: Address must start with 0x"] ∨
     ∃ e, report = [EvSpinnerFail "Failed to check account"; EvReportError e]) ∧
    sdk_calls ([EvSpinnerStart "Checking if account exists..."] ++ logs ++ report) = [] ∧
    ∀ a, EvAccountExists a ∉
           [EvSpinnerStart "Checking if account exists..."] ++ logs ++ report.
Proof.
  apply (account_exists_rejects_unprefixed (service := accepting) only_api_key 0 "abc" ∅).
  reflexivity.
Defined.

Lemma private_key_prefix_invariant_witness :
  createUnifiedClient (service := accepting) "1234" None empty_world =
    createUnifiedClient (service := accepting) "0x1234" None empty_world ∧
  (createUnifiedClient (service := accepting) "1234" None empty_world).1 = Ok wallet.
Proof.
  split; [|reflexivity].
  apply (private_key_prefix_invariant (service := accepting) "1234" None empty_world).
  reflexivity.
Defined.

Lemma siwe_message_constants_witness :
  let params :=
    {| domain := "localhost"; siwe_address := "0xA1234"; uri := DEFAULT_API_URI;
       version := "1"; chainId := 1; nonce := "nonce-0xA1234"; issuedAt := 1000 |} in
  chainId params = 1 ∧
  version params = "1" ∧
  URL_hostname (or_default ((∅ : gmap string string) !! "API_URI") DEFAULT_API_URI)
    = Some (domain params) ∧
  chainId params ≠ chain_id sepolia ∧
  ∀ key ak apiUri now w w',
    initSDKWithPrivateKey (service := accepting) key ak apiUri now w = (Ok mesh, w') →
    wc_chain (private (getSigner mesh)) = sepolia.
Proof.
  apply (siwe_message_constants (service := accepting) ∅ 1000 2000 mesh ∅).
  apply list_elem_of_In. vm_compute. right. left. reflexivity.
Defined.

(** The boundary of the validity window: at the expiry itself the token is
    not returned. *)
Example getToken_at_expiry :
  (getToken 5 (World (cached_files credential) [])).1 = Ok None ∧
  (getToken 4 (World (cached_files credential) [])).1 = Ok (Some (TokenData "ab" 5)).
Proof. vm_compute. done. Qed.

(** A login the service accepts: three calls, then the directory and the
    file. *)
Example login_accepted :
  let run := loginWithSIWE (service := accepting) ∅ 1000 2000 mesh empty_world in
  run.1 = Ok "jwt" ∧
  trace run.2 =
    [EvRequestNonce "0xA1234";
     EvSignSiWeMessage
       {| domain := "localhost"; siwe_address := "0xA1234"; uri := DEFAULT_API_URI;
          version := "1"; chainId := 1; nonce := "nonce-0xA1234"; issuedAt := 1000 |};
     EvAuthenticateSiWe "sign-in nonce-0xA1234" "signature";
     EvMkdir TOKEN_DIR;
     EvWriteFile TOKEN_FILE (stringify (TokenData "jwt" 2592002000))].
Proof. vm_compute. done. Qed.

(** A login the service refuses: the three calls and no write. *)
Example login_refused :
  let run := loginWithSIWE (service := refusing) ∅ 1000 2000 mesh empty_world in
  run.1 = Throw (ExternalError "401") ∧
  files run.2 = ∅ ∧
  sdk_calls (trace run.2) = trace run.2 ∧
  length (trace run.2) = 3%nat.
Proof. vm_compute. done. Qed.

(** The two keys of one account. *)
Example initSDKWithPrivateKey_prefix :
  (initSDKWithPrivateKey (service := accepting) "1234" None None 0 empty_world).1 =
  (initSDKWithPrivateKey (service := accepting) "0x1234" None None 0 empty_world).1 ∧
  (initSDKWithPrivateKey (service := accepting) "1234" None None 0 empty_world).1 = Ok mesh.
Proof. vm_compute. done. Qed.

(** A request with a saved response. *)
Example authorize_saves_response :
  let options := {| opt_file := None; opt_json := Some (stringify request);
                    opt_outfile := Bare |} in
  let run := authorize_action (service := accepting) only_api_key 0 options empty_world in
  run.1 = Ok tt ∧
  authorization_payloads (trace run.2) = [request] ∧
  files run.2 !! resolve "tmp/my.json" =
    Some (File (stringify (JObj [("allowed", JBool true)]))).
Proof. vm_compute. done. Qed.

End Examples.


(** * Further properties of the code *)

(** ** Runs and the relations they keep *)

Section Steps.
Context (R : world → world → Prop) {A B : Type}.
Hypothesis R_refl : ∀ w, R w w.
Hypothesis R_trans : ∀ w1 w2 w3, R w1 w2 → R w2 w3 → R w1 w3.

Lemma steps_unchanged (m : M A) : (∀ w, (m w).2 = w) → steps R m.
Proof. intros Hm w. rewrite Hm. apply R_refl. Qed.

Lemma steps_ret (a : A) : steps R (mret a).
Proof. by apply steps_unchanged. Qed.

Lemma steps_throw (e : exn) : steps R (throw e : M A).
Proof. by apply steps_unchanged. Qed.

Lemma steps_lift (o : outcome A) : steps R (lift_outcome o).
Proof. by apply steps_unchanged. Qed.

Lemma steps_bind (m : M A) (f : A → M B) :
  steps R m → (∀ a, steps R (f a)) → steps R (m ≫= f).
Proof.
  intros Hm Hf w. unfold mbind, M_bind.
  pose proof (Hm w) as H1. destruct (m w) as [[a|e] w1]; cbn in *; [|done].
  apply (R_trans _ w1); [done|apply Hf].
Qed.

Lemma steps_try_catch (body : M A) (handler : exn → M A) :
  steps R body → (∀ e, steps R (handler e)) → steps R (try_catch body handler).
Proof.
  intros Hm Hf w. unfold try_catch.
  pose proof (Hm w) as H1. destruct (body w) as [[a|e] w1]; cbn in *; [done|].
  apply (R_trans _ w1); [done|apply Hf].
Qed.

Lemma steps_if (b : bool) (m1 m2 : M A) :
  steps R m1 → steps R m2 → steps R (if b then m1 else m2).
Proof. by destruct b. Qed.
End Steps.

Section NeverThrows.
Context {A B : Type}.

Lemma never_throws_ret (a : A) : never_throws (mret a).
Proof. intros w. by exists a. Qed.

Lemma never_throws_emit e : never_throws (emit e).
Proof. intros w. by exists tt. Qed.

Lemma never_throws_bind (m : M A) (f : A → M B) :
  never_throws m → (∀ a, never_throws (f a)) → never_throws (m ≫= f).
Proof.
  intros Hm Hf w. unfold mbind, M_bind.
  destruct (Hm w) as [a Ha]. destruct (m w) as [[a'|e] w1]; cbn in *; [|done].
  apply Hf.
Qed.

Lemma never_throws_try_catch (body : M A) (handler : exn → M A) :
  (∀ e, never_throws (handler e)) → never_throws (try_catch body handler).
Proof.
  intros Hf w. unfold try_catch.
  destruct (body w) as [[a|e] w1]; cbn; [by exists a|apply Hf].
Qed.

Lemma never_throws_if (b : bool) (m1 m2 : M A) :
  never_throws m1 → never_throws m2 → never_throws (if b then m1 else m2).
Proof. by destruct b. Qed.
End NeverThrows.

Lemma same_files_refl w : same_files w w.
Proof. reflexivity. Qed.

Lemma same_files_trans w1 w2 w3 : same_files w1 w2 → same_files w2 w3 → same_files w1 w3.
Proof. unfold same_files. congruence. Qed.

Lemma extends_with_refl P w : extends_with P w w.
Proof. exists []. by rewrite app_nil_r. Qed.

Lemma extends_with_trans P w1 w2 w3 :
  extends_with P w1 w2 → extends_with P w2 w3 → extends_with P w1 w3.
Proof.
  intros (evs1 & H1 & F1) (evs2 & H2 & F2). exists (evs1 ++ evs2).
  split; [by rewrite H2, H1, app_assoc|]. apply List.Forall_app. done.
Qed.

Lemma same_files_emit e : steps same_files (emit e).
Proof. by intros w. Qed.

Lemma extends_with_emit (P : event → Prop) e : P e → steps (extends_with P) (emit e).
Proof. intros He w. exists [e]. split; [done|]. by apply List.Forall_cons. Qed.

(** ** The credential cache *)

Section CacheMore.
Context `{rt : JsRuntime}.

(** A read of the cache never throws and never changes the world, and what
    it returns, when it is not [null], comes from the file. *)
Lemma getToken_result now w :
  ∃ r, getToken now w = (Ok r, w) ∧
       ∀ data, r = Some data →
         ∃ text members,
           files w !! TOKEN_FILE = Some (File text) ∧
           JSON_parse text = Some data ∧
           data = JObj members ∧
           js_gt (lookup_member "expiresAt" members) now = true.
Proof.
  destruct w as [fs tr]. cbn [files].
  destruct (fs !! TOKEN_FILE) as [[|text]|] eqn:Hlook.
  - rewrite (getToken_directory _ _ _ Hlook). by eexists.
  - rewrite (getToken_file _ _ _ _ Hlook).
    destruct (JSON_parse text) as [[| | | | |members]|] eqn:Hparse;
      try (by eexists).
    destruct (js_gt (lookup_member "expiresAt" members) now) eqn:Hgt;
      [|by eexists].
    eexists. split; [reflexivity|].
    intros data [= <-]. by exists text, members.
  - rewrite (getToken_absent _ _ _ Hlook). by eexists.
Qed.

(** X1. A read of the cache never throws and never changes the world, whatever
    the file holds. It returns a value other than [null] exactly when the
    credential file is a regular file whose text parses to an object with an
    [expiresAt] that compares greater than the current time, and the value is
    then that object: whether it has a [token] is not looked at. *)
Theorem getToken_sound now w :
  ∃ r, getToken now w = (Ok r, w) ∧
       ∀ data, r = Some data ↔
         ∃ text members,
           files w !! TOKEN_FILE = Some (File text) ∧
           JSON_parse text = Some data ∧
           data = JObj members ∧
           js_gt (lookup_member "expiresAt" members) now = true.
Proof.
  destruct (getToken_result now w) as (r & Hrun & Hsound).
  exists r. split; [done|]. intros data. split; [apply Hsound|].
  intros (text & members & Hfile & Hparse & -> & Hgt).
  destruct w as [fs tr]. cbn [files] in Hfile.
  rewrite (getToken_file _ _ _ _ Hfile), Hparse, Hgt in Hrun. congruence.
Qed.


Lemma parent_is_dir_TOKEN_FILE fs :
  parent_is_dir fs TOKEN_FILE = true ↔ fs !! TOKEN_DIR = Some Dir.
Proof.
  unfold parent_is_dir. rewrite dirname_TOKEN_FILE.
  pose proof TOKEN_DIR_not_root.
  destruct TOKEN_DIR as [|seg rest]; [done|].
  by destruct (fs !! (seg :: rest)) as [[|c]|].
Qed.




(** X4. When a regular file is in the place of the credential directory, or
    when that place is taken and a directory is in the place of the
    credential file, [saveToken] throws after its attempt to write, it has
    not called [mkdirSync] and the file system is as it was. *)
Theorem saveToken_blocked now token ttl fs tr :
  (∃ c, fs !! TOKEN_DIR = Some (File c)) ∨ fs !! TOKEN_FILE = Some Dir →
  is_Some (fs !! TOKEN_DIR) →
  ∃ e, saveToken now token ttl (World fs tr) =
         (Throw e,
          World fs (tr ++ [EvWriteFile TOKEN_FILE
                             (JSON_stringify (TokenData token (now + ttl * 1000)))])).
Proof.
  intros Hblocked Hexists.
  unfold saveToken, existsSync, writeFileSync. unfold_M. cbn [files trace].
  rewrite bool_decide_eq_true_2 by done. cbn.
  pose proof TOKEN_FILE_not_root as Hroot.
  destruct (parent_is_dir fs TOKEN_FILE) eqn:Hparent.
  - apply parent_is_dir_TOKEN_FILE in Hparent.
    destruct Hblocked as [[c Hc]|Hdir]; [congruence|].
    destruct TOKEN_FILE as [|seg rest]; [done|]. rewrite Hdir. by eexists.
  - destruct TOKEN_FILE as [|seg rest]; [done|].
    destruct (fs !! (seg :: rest)) as [[|old]|]; by eexists.
Qed.

End CacheMore.

(** ** Clients and initialisation *)

Section InitMore.
Context `{rt : JsRuntime} `{service : MeshSdk}.

Lemma slice_prefix key : startsWith key "0x" = true → "0x" +:+ slice 2 key = key.
Proof.
  destruct key as [|a [|b rest]]; cbn -[Ascii.eqb]; try done.
  - by destruct (Ascii.eqb "0" a).
  - destruct (Ascii.eqb_spec "0" a) as [<-|]; [|done].
    destruct (Ascii.eqb_spec "x" b) as [<-|]; done.
Qed.

Lemma normalized_key key :
  "0x" +:+ (if startsWith key "0x" then slice 2 key else key) = with_0x key.
Proof.
  unfold with_0x. destruct (startsWith key "0x") eqn:Hprefix; [|done].
  by apply slice_prefix.
Qed.

(** X5. [createUnifiedClient] derives the account from the key itself when
    the key begins with ["0x"] and from the key behind ["0x"] otherwise: one
    prefix at most is removed and put back. It throws exactly when [viem]
    rejects that key, and otherwise returns the client of the account [viem]
    derives, on the chain given, sepolia by default. *)
Theorem createUnifiedClient_derivation key chain w :
  startsWith (with_0x key) "0x" = true ∧
  createUnifiedClient key chain w =
    match privateKeyToAccount (with_0x key) with
    | None => (Throw (ExternalError "privateKeyToAccount"), w)
    | Some acct =>
        (Ok {| account := acct;
               open := {| pc_chain := default sepolia chain |};
               private := {| wc_account := acct; wc_chain := default sepolia chain |} |},
         w)
    end.
Proof.
  split.
  - unfold with_0x. by destruct (startsWith key "0x") eqn:Hprefix.
  - unfold createUnifiedClient. rewrite normalized_key.
    by destruct (privateKeyToAccount (with_0x key)).
Qed.

Lemma initSDKWithPrivateKey_run key ak apiUri now fs tr acct :
  truthy key = true →
  privateKeyToAccount (with_0x key) = Some acct →
  initSDKWithPrivateKey key ak apiUri now (World fs tr) =
    let mesh :=
      MeshSDK_init {| apiUri := default DEFAULT_API_URI apiUri;
                      apiKey := default "" ak;
                      sdk_version := SDK_VERSION |} (sepolia_client acct) in
    match (getToken now (World fs tr)).1 with
    | Ok (Some (JObj members)) =>
        (Ok (setJwtToken mesh (lookup_member "token" members)),
         World fs (tr ++ [EvConsoleLog "Using existing token"]))
    | _ => (Ok mesh, World fs tr)
    end.
Proof.
  intros Hkey Hderive.
  unfold initSDKWithPrivateKey, createUnifiedClient.
  rewrite Hkey, normalized_key, Hderive. unfold_M. cbn [negb].
  destruct (getToken_result now (World fs tr)) as (r & -> & Hr). cbn.
  destruct r as [data|]; [|done].
  destruct (Hr data eq_refl) as (text & members & _ & _ & -> & _). done.
Qed.

(** X6. With [PRIVATE_KEY] provided and accepted by [viem], [initSDK] returns
    the full client of the derived account on sepolia, with [API_KEY] (or the
    empty string) and [API_URI] (or the default) in its options. The cached
    token is installed in the client, and the notice printed, exactly when
    [getToken] returns a credential; otherwise the client has no token and
    nothing is printed. The file system is never changed. *)
Theorem initSDK_private_key_uses_cache env now fs tr acct :
  truthy_opt (env !! "PRIVATE_KEY") = true →
  privateKeyToAccount (with_0x (default "" (env !! "PRIVATE_KEY"))) = Some acct →
  initSDK env now (World fs tr) =
    let mesh :=
      MeshSDK_init {| apiUri := or_default (env !! "API_URI") DEFAULT_API_URI;
                      apiKey := or_default (env !! "API_KEY") "";
                      sdk_version := "0.1.0" |} (sepolia_client acct) in
    match (getToken now (World fs tr)).1 with
    | Ok (Some (JObj members)) =>
        (Ok (SdkMesh (setJwtToken mesh (lookup_member "token" members))),
         World fs (tr ++ [EvConsoleLog "Using existing token"]))
    | _ => (Ok (SdkMesh mesh), World fs tr)
    end.
Proof.
  intros Hpk Hderive. unfold initSDK. rewrite Hpk, andb_false_r.
  unfold mbind at 1, M_bind.
  rewrite (initSDKWithPrivateKey_run _ _ _ _ _ _ acct); [|by destruct (env !! "PRIVATE_KEY")|done].
  cbv zeta. cbn [default].
  by destruct (getToken now (World fs tr)).1 as [[[| | | | |members]|]|e].
Qed.

(** X7. No fall back: with [PRIVATE_KEY] provided and rejected by [viem],
    [initSDK] throws, also when [API_KEY] is provided; the cache is not read
    and nothing is printed. *)
Theorem initSDK_no_fallback env now w :
  truthy_opt (env !! "PRIVATE_KEY") = true →
  privateKeyToAccount (with_0x (default "" (env !! "PRIVATE_KEY"))) = None →
  initSDK env now w = (Throw (ExternalError "privateKeyToAccount"), w).
Proof.
  intros Hpk Hderive. unfold initSDK. rewrite Hpk, andb_false_r.
  unfold initSDKWithPrivateKey, createUnifiedClient.
  rewrite normalized_key, Hderive.
  assert (Hkey : truthy (default "" (env !! "PRIVATE_KEY")) = true)
    by (by destruct (env !! "PRIVATE_KEY")).
  rewrite Hkey. reflexivity.
Qed.

(** X8. With [API_KEY] provided and [PRIVATE_KEY] not, [initSDK] returns the
    light client with [API_KEY], [API_URI] (or the default when it is unset
    or empty) and the version of the SDK, whatever the time and whatever the
    credential cache holds: it does not read the cache, prints nothing and
    changes nothing. *)
Theorem initSDK_api_key_ignores_cache env now w :
  truthy_opt (env !! "API_KEY") = true →
  truthy_opt (env !! "PRIVATE_KEY") = false →
  initSDK env now w =
    (Ok (SdkLite (MeshSDKLite_init
                    {| apiUri := or_default (env !! "API_URI") DEFAULT_API_URI;
                       apiKey := default "" (env !! "API_KEY");
                       sdk_version := "0.1.0" |})), w) ∧
  ∀ now' fs' , (initSDK env now' (World fs' (trace w))).1 = (initSDK env now w).1.
Proof.
  intros Hak Hpk.
  assert (Hrun : ∀ n v, initSDK env n v =
            (Ok (SdkLite (MeshSDKLite_init
                    {| apiUri := or_default (env !! "API_URI") DEFAULT_API_URI;
                       apiKey := default "" (env !! "API_KEY");
                       sdk_version := "0.1.0" |})), v)).
  { intros n v. unfold initSDK, initSDKWithApiKey. rewrite Hak, Hpk. cbn [andb negb].
    assert (Hkey : truthy (default "" (env !! "API_KEY")) = true)
      by (by destruct (env !! "API_KEY")).
    by rewrite Hkey. }
  split; [apply Hrun|]. intros now' fs'. by rewrite !Hrun.
Qed.

End InitMore.

(** ** The [authorize] handlers *)

Ltac complain :=
  cbn;
  match goal with
  | |- ∃ msgs, (_, World _ ((_ ++ [?a]) ++ [?b])) = _ ∧ _ => exists [a; b]
  | |- ∃ msgs, (_, World _ (_ ++ [?a])) = _ ∧ _ => exists [a]
  end;
  (split; [by rewrite <- ?app_assoc|]);
  (split; [do 2 eexists; split; [reflexivity|]; split; [cbn; lia|reflexivity]|]);
  intros tr'; by rewrite <- ?app_assoc.

Section AuthorizeMore.
Context `{rt : JsRuntime} `{service : MeshSdk}.

(** [read_request] returns, with the request the options select; when there
    is none it has printed a failure and at most the error behind it. *)
Lemma read_request_run options fs tr :
  ∃ msgs,
    read_request options (World fs tr) =
      (Ok (selected_request options fs), World fs (tr ++ msgs)) ∧
    match selected_request options fs with
    | Some _ => msgs = []
    | None => ∃ text rest, msgs = EvSpinnerFail text :: rest ∧
                           (length rest ≤ 1)%nat ∧ sdk_calls rest = []
    end ∧
    ∀ tr', read_request options (World fs tr') =
             (Ok (selected_request options fs), World fs (tr' ++ msgs)).
Proof.
  unfold read_request, selected_request, readFileSync, JSON_parse_call, report_error.
  unfold_M.
  destruct (truthy_opt (opt_file options)); cbn.
  - destruct (fs !! path_resolve (default "" (opt_file options))) as [[|text]|];
      [complain| |complain].
    cbn. destruct (JSON_parse text) as [v|]; [|complain].
    exists []. cbn. split; [by rewrite app_nil_r|]. split; [done|].
    intros tr'. by rewrite app_nil_r.
  - destruct (truthy_opt (opt_json options)); [|complain].
    cbn. destruct (JSON_parse (default "" (opt_json options))) as [v|]; [|complain].
    exists []. cbn. split; [by rewrite app_nil_r|]. split; [done|].
    intros tr'. by rewrite app_nil_r.
Qed.

(** X9. When the options select no request (no input, a file that cannot be
    read or does not hold JSON, an inline text that is not JSON), both
    handlers print the failure, and at most the error behind it, and return:
    [initSDK] is not run, so the run is the same in every environment and at
    every time, nothing of the SDK is called and the file system is as it
    was. *)
Theorem authorize_without_request options fs :
  selected_request options fs = None →
  ∃ text rest,
    (length rest ≤ 1)%nat ∧ sdk_calls rest = [] ∧
    ∀ env now,
      authorize_action env now options (World fs []) =
        (Ok tt, World fs ([EvSpinnerStart "Validating authorization...";
                           EvSpinnerFail text] ++ rest)) ∧
      authorize_batch_action env now options (World fs []) =
        (Ok tt, World fs ([EvSpinnerStart "Validating batch authorization...";
                           EvSpinnerFail text] ++ rest)).
Proof.
  intros Hnone.
  destruct (read_request_run options fs []) as (msgs & _ & Hmsgs & Hread).
  rewrite Hnone in Hmsgs, Hread.
  destruct Hmsgs as (text & rest & -> & Hlen & Hquiet).
  exists text, rest. split; [done|]. split; [done|].
  intros env now. split.
  - unfold authorize_action. unfold_M. cbn [files trace app]. by rewrite Hread.
  - unfold authorize_batch_action. unfold_M. cbn [files trace app]. by rewrite Hread.
Qed.

(** X10. [--file] comes first: when a file is named, the inline text of
    [--json] is not looked at, also when the file cannot be read; and a file
    name that is the empty string counts as no file. *)
Theorem authorize_file_precedence env now file inline outfile w :
  (file ≠ "" →
   authorize_action env now
     {| opt_file := Some file; opt_json := inline; opt_outfile := outfile |} w =
   authorize_action env now
     {| opt_file := Some file; opt_json := None; opt_outfile := outfile |} w ∧
   authorize_batch_action env now
     {| opt_file := Some file; opt_json := inline; opt_outfile := outfile |} w =
   authorize_batch_action env now
     {| opt_file := Some file; opt_json := None; opt_outfile := outfile |} w) ∧
  authorize_action env now
    {| opt_file := Some ""; opt_json := inline; opt_outfile := outfile |} w =
  authorize_action env now
    {| opt_file := None; opt_json := inline; opt_outfile := outfile |} w ∧
  authorize_batch_action env now
    {| opt_file := Some ""; opt_json := inline; opt_outfile := outfile |} w =
  authorize_batch_action env now
    {| opt_file := None; opt_json := inline; opt_outfile := outfile |} w.
Proof.
  split; [|split; reflexivity].
  intros Hname.
  assert (Hread : read_request
            {| opt_file := Some file; opt_json := inline; opt_outfile := outfile |} =
          read_request
            {| opt_file := Some file; opt_json := None; opt_outfile := outfile |}).
  { unfold read_request. cbn [opt_file opt_json truthy_opt default].
    by destruct file. }
  unfold authorize_action, authorize_batch_action. by rewrite Hread.
Qed.

(** X11. The [authorize] handler changes the file system only when
    [--outfile] asks for a file, a request was read, [initSDK] returned and
    the service answered the call: a run that fails before, or that is not
    asked to save, leaves every file as it was. *)
Theorem authorize_writes_only_on_success env now options fs :
  files (authorize_action env now options (World fs [])).2 ≠ fs →
  is_Some (outfile_path (opt_outfile options)) ∧
  ∃ v client w1 response,
    selected_request options fs = Some v ∧
    initSDK env now (World fs [EvSpinnerStart "Validating authorization..."])
      = (Ok client, w1) ∧
    validateAuthorization client v = Ok response.
Proof.
  intros Hchanged.
  destruct (read_request_run options fs [EvSpinnerStart "Validating authorization..."])
    as (msgs & Hread & Hmsgs & _).
  destruct (initSDK_effects env now fs [EvSpinnerStart "Validating authorization..."])
    as (r & logs & Hrun & _).
  unfold authorize_action, report_error in Hchanged. unfold_M.
  cbn [files trace app] in Hchanged. rewrite Hread in Hchanged.
  destruct (selected_request options fs) as [v|]; [|done].
  subst msgs. rewrite app_nil_r in Hchanged. rewrite Hrun in Hchanged.
  destruct r as [client|e]; [|done]. cbn [files trace] in Hchanged.
  destruct (validateAuthorization client v) as [response|e] eqn:Hcall; [|done].
  split; [|by eexists _, _, _, _].
  unfold save_response, outfile_path in *.
  destruct (opt_outfile options) as [| |value]; [done|done|].
  by destruct (truthy value).
Qed.

Lemma length_dirname (p : path) : p ≠ [] → (length (dirname p) < length p)%nat.
Proof.
  intros Hp. unfold dirname.
  rewrite (app_removelast_last "" Hp) at 2. rewrite length_app. simpl. lia.
Qed.

(** The part of [save_response] that writes, in a file system where it can:
    the directory is created when it is absent and the file then holds the
    content. *)
Lemma save_response_writes options response fs tr p :
  outfile_path (opt_outfile options) = Some p →
  dirname (path_resolve p) ≠ [] →
  (∀ pre c, pre `prefix_of` dirname (path_resolve p) → fs !! pre ≠ Some (File c)) →
  fs !! path_resolve p ≠ Some Dir →
  ∃ fs',
    save_response options response (World fs tr) =
      (Ok tt,
       World fs' (tr ++ (if bool_decide (is_Some (fs !! dirname (path_resolve p)))
                         then [] else [EvMkdir (dirname (path_resolve p))])
                    ++ [EvWriteFile (path_resolve p) (JSON_stringify_pretty response);
                        EvConsoleLog (newline +:+ "Response saved to " +:+ p)])) ∧
    fs' !! path_resolve p = Some (File (JSON_stringify_pretty response)) ∧
    fs' !! dirname (path_resolve p) = Some Dir.
Proof.
  intros Hpath Hparent Hfree Hnotdir.
  assert (Hout : save_response options response =
                 (dir_exists ← existsSync (dirname (path_resolve p));
                  _ ← (if negb dir_exists
                       then mkdirSync_recursive (dirname (path_resolve p)) else mret tt);
                  _ ← writeFileSync (path_resolve p) (JSON_stringify_pretty response);
                  emit (EvConsoleLog (newline +:+ "Response saved to " +:+ p)))).
  { unfold save_response, outfile_path in *.
    destruct (opt_outfile options) as [| |value]; [done|by inversion Hpath|].
    destruct (truthy value); by inversion Hpath. }
  rewrite Hout. clear Hout.
  set (target := path_resolve p) in *.
  assert (Htarget : target ≠ []) by (by intros Heq; rewrite Heq in Hparent).
  assert (Hne : target ≠ dirname target).
  { intros Heq. pose proof (length_dirname target Htarget) as Hlen.
    rewrite <- Heq in Hlen. lia. }
  unfold existsSync, mkdirSync_recursive. unfold_M. cbn [files trace].
  destruct (fs !! dirname target) as [[|c]|] eqn:Hlook.
  - rewrite bool_decide_eq_true_2 by eauto. cbn.
    rewrite writeFileSync_ok by done. cbn.
    eexists. split; [by rewrite <- !app_assoc|].
    split; [apply lookup_insert_eq|by rewrite lookup_insert_ne].
  - by destruct (Hfree (dirname target) c).
  - rewrite bool_decide_eq_false_2 by (by intros [? ?]). cbn.
    destruct (mkdir_walk_ok [] (dirname target) fs) as [fs1 Hwalk]; [exact Hfree|].
    rewrite Hwalk. cbn.
    assert (Hdir : fs1 !! dirname target = Some Dir)
      by (by apply (mkdir_walk_dir [] (dirname target) fs)).
    assert (Hsame : fs1 !! target = fs !! target).
    { apply (mkdir_walk_other _ _ _ _ _ Hwalk).
      pose proof (length_dirname target Htarget). simpl. lia. }
    rewrite writeFileSync_ok; [|by rewrite Hsame|done..]. cbn.
    eexists. split; [by rewrite <- !app_assoc|].
    split; [apply lookup_insert_eq|by rewrite lookup_insert_ne].
Qed.

(** X12. When the request was read, [initSDK] returned, the service answered
    and [--outfile] asks for a file that can be written, the handler returns
    and the file holds the response as [JSON.stringify(response, null, 2)]
    prints it; the file is [tmp/my.json] when [--outfile] has no value. The
    last line printed names the file. *)
Theorem authorize_saves_to_outfile env now options fs v client response p :
  selected_request options fs = Some v →
  (initSDK env now (World fs [EvSpinnerStart "Validating authorization..."])).1
    = Ok client →
  validateAuthorization client v = Ok response →
  outfile_path (opt_outfile options) = Some p →
  dirname (path_resolve p) ≠ [] →
  (∀ pre c, pre `prefix_of` dirname (path_resolve p) → fs !! pre ≠ Some (File c)) →
  fs !! path_resolve p ≠ Some Dir →
  ∃ fs' tr',
    authorize_action env now options (World fs []) = (Ok tt, World fs' tr') ∧
    fs' !! path_resolve p = Some (File (JSON_stringify_pretty response)) ∧
    last tr' = Some (EvConsoleLog (newline +:+ "Response saved to " +:+ p)).
Proof.
  intros Hreq Hinit Hcall Hpath Hparent Hfree Hnotdir.
  destruct (read_request_run options fs [EvSpinnerStart "Validating authorization..."])
    as (msgs & Hread & Hmsgs & _).
  rewrite Hreq in Hread, Hmsgs. subst msgs. rewrite app_nil_r in Hread.
  destruct (initSDK_effects env now fs [EvSpinnerStart "Validating authorization..."])
    as (r & logs & Hrun & _).
  rewrite Hrun in Hinit. cbn in Hinit. subst r.
  unfold authorize_action. unfold_M. cbn [files trace app].
  rewrite Hread, Hrun. cbn [files trace]. rewrite Hcall. cbn [files trace].
  match goal with
  | |- context [save_response options response (World fs ?tr)] =>
      destruct (save_response_writes options response fs tr p Hpath Hparent Hfree Hnotdir)
        as (fs' & Hsave & Hfile & _)
  end.
  rewrite Hsave. eexists _, _. split; [reflexivity|]. split; [exact Hfile|].
  match goal with
  | |- last (?pre ++ ?mk ++ [?a; ?b]) = _ =>
      change (pre ++ mk ++ [a; b]) with (pre ++ mk ++ [a] ++ [b])
  end.
  rewrite !app_assoc. apply last_snoc.
Qed.

(** X13. The handlers of [authorize], [authorize-batch] and [account-exists]
    never throw: every error, of the input, of the initialisation, of the
    service or of the file system, is caught and printed. *)
Theorem handlers_never_throw env now :
  (∀ options, never_throws (authorize_action env now options)) ∧
  (∀ options, never_throws (authorize_batch_action env now options)) ∧
  (∀ address, never_throws (account_exists_action env now address)).
Proof.
  repeat split; intros x;
    (apply never_throws_bind; [apply never_throws_emit|]); intros _;
    apply never_throws_try_catch; intros e;
    (apply never_throws_bind; [apply never_throws_emit|]); intros _;
    apply never_throws_emit.
Qed.

(** X14. With an address that starts with ["0x"], once [initSDK] has returned
    and the service has answered whether the account exists, the handler has
    asked that question once, with the address as it was given, and has asked
    for the details of the account only when the account exists. It returns
    without a failure or an error printed, also when the details are
    refused, and the file system is as it was. *)
Theorem account_exists_calls env now address fs client exists_ :
  startsWith address "0x" = true →
  (initSDK env now (World fs [EvSpinnerStart "Checking if account exists..."])).1
    = Ok client →
  accountExists client address = Ok exists_ →
  ∃ tr',
    account_exists_action env now address (World fs []) = (Ok tt, World fs tr') ∧
    sdk_calls tr' =
      EvAccountExists address :: (if exists_ then [EvAccountDetail] else []) ∧
    (∀ text, EvSpinnerFail text ∉ tr') ∧
    (∀ e, EvReportError e ∉ tr').
Proof.
  intros Hprefix Hinit Hexists.
  destruct (initSDK_effects env now fs [EvSpinnerStart "Checking if account exists..."])
    as (r & logs & Hrun & Hlogs).
  rewrite Hrun in Hinit. cbn in Hinit. subst r.
  unfold account_exists_action, log_account_details. rewrite Hprefix.
  unfold_M. cbn [files trace app negb]. rewrite Hrun. cbn [files trace].
  rewrite Hexists. cbn [files trace].
  destruct exists_; cbn [files trace].
  - destruct (accountDetail client) as [[d|]|e]; cbn [files trace];
      destruct Hlogs as [-> | ->];
      (eexists; split; [reflexivity|]; split; [reflexivity|]; split; set_solver).
  - destruct Hlogs as [-> | ->];
      (eexists; split; [reflexivity|]; split; [reflexivity|]; split; set_solver).
Qed.

(** X15. When the service refuses the question, the handler prints the
    failure and that error and returns; the details are not asked for and
    the file system is as it was. *)
Theorem account_exists_refused env now address fs client e :
  startsWith address "0x" = true →
  (initSDK env now (World fs [EvSpinnerStart "Checking if account exists..."])).1
    = Ok client →
  accountExists client address = Throw e →
  ∃ logs,
    account_exists_action env now address (World fs []) =
      (Ok tt,
       World fs ([EvSpinnerStart "Checking if account exists..."] ++ logs ++
                 [EvAccountExists address;
                  EvSpinnerFail "Failed to check account";
                  EvReportError e])) ∧
    sdk_calls logs = [].
Proof.
  intros Hprefix Hinit Hexists.
  destruct (initSDK_effects env now fs [EvSpinnerStart "Checking if account exists..."])
    as (r & logs & Hrun & Hlogs).
  rewrite Hrun in Hinit. cbn in Hinit. subst r.
  unfold account_exists_action, report_error. rewrite Hprefix.
  unfold_M. cbn [files trace app negb]. rewrite Hrun. cbn [files trace].
  rewrite Hexists. cbn [files trace].
  exists logs. by destruct Hlogs as [-> | ->].
Qed.

End AuthorizeMore.

(** ** The [login] handler *)

Lemma steps_ret_bind {A B} R (a : A) (f : A → M B) :
  steps R (f a) → steps R (mret a ≫= f).
Proof. intros Hf w. apply Hf. Qed.

Section Grows.
Context (P : event → Prop) {A B : Type}.

Lemma grows_unchanged (m : M A) : (∀ w, (m w).2 = w) → steps (extends_with P) m.
Proof. apply steps_unchanged, extends_with_refl. Qed.

Lemma grows_ret (a : A) : steps (extends_with P) (mret a).
Proof. by apply grows_unchanged. Qed.

Lemma grows_bind (m : M A) (f : A → M B) :
  steps (extends_with P) m → (∀ a, steps (extends_with P) (f a)) →
  steps (extends_with P) (m ≫= f).
Proof. apply steps_bind, extends_with_trans. Qed.

Lemma grows_try_catch (body : M A) (handler : exn → M A) :
  steps (extends_with P) body → (∀ e, steps (extends_with P) (handler e)) →
  steps (extends_with P) (try_catch body handler).
Proof. apply steps_try_catch, extends_with_trans. Qed.

End Grows.

Lemma grows_call {A} P e (answer : outcome A) : P e → steps (extends_with P) (call e answer).
Proof.
  intros He. unfold call. apply grows_bind; [by apply extends_with_emit|].
  intros _. by apply grows_unchanged.
Qed.

Section LoginMore.
Context `{rt : JsRuntime} `{service : MeshSdk} `{prompts : Inquirer}.

Lemma grows_effects {A} P (m : M A) w r fs logs :
  m w = (r, World fs (trace w ++ logs)) → Forall P logs → extends_with P w (m w).2.
Proof. intros -> Hlogs. by exists logs. Qed.

Lemma grows_initSDKWithPrivateKey P key ak apiUri now :
  P (EvConsoleLog "Using existing token") →
  steps (extends_with P) (initSDKWithPrivateKey key ak apiUri now).
Proof.
  intros HP [fs tr].
  destruct (initSDKWithPrivateKey_effects key ak apiUri now fs tr)
    as (r & logs & Hrun & Hlogs & _).
  apply (grows_effects _ _ _ _ _ _ Hrun).
  destruct Hlogs as [-> | ->]; repeat constructor. done.
Qed.

Lemma grows_initSDK P env now :
  P (EvConsoleLog "Using existing token") → steps (extends_with P) (initSDK env now).
Proof.
  intros HP [fs tr].
  destruct (initSDK_effects env now fs tr) as (r & logs & Hrun & Hlogs).
  apply (grows_effects _ _ _ _ _ _ Hrun).
  destruct Hlogs as [-> | ->]; repeat constructor. done.
Qed.

Lemma grows_saveToken P now token ttl :
  P (EvMkdir TOKEN_DIR) → (∀ c, P (EvWriteFile TOKEN_FILE c)) →
  steps (extends_with P) (saveToken now token ttl).
Proof.
  intros Hmkdir Hwrite w.
  destruct (saveToken_effects now token ttl w) as (r & w' & writes & Hrun & Htr & _ & Hw & _).
  rewrite Hrun. exists writes. split; [done|].
  eapply List.Forall_impl; [|exact Hw]. by intros e [-> | ->].
Qed.

(** What [loginWithSIWE] adds to the trace: calls of the SDK and writes of
    the credential, and the message it has signed carries the URI of the
    environment. *)
Lemma grows_loginWithSIWE P env issued saved mesh :
  (∀ e, (∀ p, e ≠ EvSignSiWeMessage p) → P e) →
  (∀ p, uri p = or_default (env !! "API_URI") DEFAULT_API_URI →
        URL_hostname (uri p) = Some (domain p) → P (EvSignSiWeMessage p)) →
  steps (extends_with P) (loginWithSIWE env issued saved mesh).
Proof.
  intros Hother Hsign.
  unfold loginWithSIWE, URL_hostname_call.
  apply grows_bind; [by apply grows_call, Hother|]. intros n.
  destruct (URL_hostname (or_default (env !! "API_URI") DEFAULT_API_URI)) as [d|] eqn:Hhost;
    [|by apply grows_unchanged].
  apply steps_ret_bind.
  apply grows_bind; [by apply grows_call, Hsign|]. intros signed.
  apply grows_bind; [by apply grows_call, Hother|]. intros token.
  apply grows_bind; [apply grows_saveToken; intros; by apply Hother|]. intros _.
  apply grows_ret.
Qed.

Lemma login_with_siwe_never_throws env now issued saved key ak apiUri :
  never_throws (login_with_siwe env now issued saved key ak apiUri).
Proof.
  apply never_throws_try_catch. intros e.
  apply never_throws_bind; [apply never_throws_emit|]. intros _. apply never_throws_emit.
Qed.

Lemma login_with_api_key_never_throws env now :
  never_throws (login_with_api_key env now).
Proof.
  apply never_throws_try_catch. intros e.
  apply never_throws_bind; [apply never_throws_emit|]. intros _. apply never_throws_emit.
Qed.

Lemma ask_credentials_given options :
  truthy_opt (opt_privateKey options) || truthy_opt (opt_apiKey options) = true →
  ask_credentials options = mret options.
Proof.
  intros Hgiven. unfold ask_credentials.
  by destruct (truthy_opt (opt_privateKey options)), (truthy_opt (opt_apiKey options)).
Qed.

Lemma ask_credentials_unchanged options w : (ask_credentials options w).2 = w.
Proof.
  unfold ask_credentials. unfold_M.
  destruct (negb _ && negb _); [|done].
  destruct ask_authMethod as [[]|e]; [| |done].
  - by destruct ask_privateKey.
  - by destruct ask_apiKey.
Qed.

(** With [--private-key] the handler signs in with the wallet, also when
    [--api-key] and [--api-uri] are given: the user is not asked anything and
    the handler returns with [process.env] as it was. *)
Lemma login_action_siwe env now issued saved options w :
  truthy_opt (opt_privateKey options) = true →
  login_action env now issued saved options w =
    (Ok env,
     (login_with_siwe env now issued saved
        (default "" (opt_privateKey options))
        (or_default (opt_apiKey options) "")
        (or_default (opt_apiUri options)
           (or_default (env !! "API_URI") "http://localhost:8080"))
        (World (files w) (trace w ++ [EvSpinnerStart "Logging in with SIWE..."]))).2).
Proof.
  intros Hpk. unfold login_action.
  rewrite ask_credentials_given by (by rewrite Hpk).
  unfold_M. cbn. rewrite Hpk.
  match goal with
  | |- context [login_with_siwe ?e ?n ?i ?s ?k ?a ?u ?W] =>
      destruct (login_with_siwe_never_throws e n i s k a u W) as [[] Hok];
      destruct (login_with_siwe e n i s k a u W) as [[[]|err] w']
  end; done.
Qed.

(** With [--api-key] and no [--private-key] the handler first sets
    [API_KEY] and [API_URI], and returns with [process.env] so changed
    whatever happens afterwards. *)
Lemma login_action_api_key env now issued saved options w :
  truthy_opt (opt_privateKey options) = false →
  truthy_opt (opt_apiKey options) = true →
  let env' :=
    <["API_URI" := or_default (opt_apiUri options)
                     (or_default (env !! "API_URI") "http://localhost:8080")]>
      (<["API_KEY" := default "" (opt_apiKey options)]> env) in
  login_action env now issued saved options w =
    (Ok env',
     (login_with_api_key env' now
        (World (files w) (trace w ++ [EvSpinnerStart "Logging in with API key..."]))).2).
Proof.
  intros Hpk Hak env'. unfold login_action.
  rewrite ask_credentials_given by (by rewrite Hak, orb_true_r).
  unfold_M. cbn. rewrite Hpk, Hak. fold env'.
  match goal with
  | |- context [login_with_api_key ?e ?n ?W] =>
      destruct (login_with_api_key_never_throws e n W) as [[] Hok];
      destruct (login_with_api_key e n W) as [[[]|err] w']
  end; done.
Qed.

Lemma login_action_asked env now issued saved options1 options2 w :
  ask_credentials options1 w = ask_credentials options2 w →
  login_action env now issued saved options1 w =
  login_action env now issued saved options2 w.
Proof. intros Hask. unfold login_action. unfold_M. by rewrite Hask. Qed.

(** X16. Asked or given, the same: without [--private-key] and without
    [--api-key] the user chooses a method and enters a key, and the run is
    then the run of the handler with that key given as the option. When a
    prompt fails the handler prints that error and returns, with
    [process.env] as it was. *)
Theorem login_prompt_as_option env now issued saved options w :
  truthy_opt (opt_privateKey options) = false →
  truthy_opt (opt_apiKey options) = false →
  match ask_authMethod with
  | Ok Siwe =>
      match ask_privateKey with
      | Ok key =>
          login_action env now issued saved options w =
          login_action env now issued saved
            {| opt_privateKey := Some key; opt_apiKey := opt_apiKey options;
               opt_apiUri := opt_apiUri options |} w
      | Throw e =>
          login_action env now issued saved options w =
            (Ok env, World (files w) (trace w ++ [EvReportError e]))
      end
  | Ok ApiKeyMethod =>
      match ask_apiKey with
      | Ok key =>
          login_action env now issued saved options w =
          login_action env now issued saved
            {| opt_privateKey := opt_privateKey options; opt_apiKey := Some key;
               opt_apiUri := opt_apiUri options |} w
      | Throw e =>
          login_action env now issued saved options w =
            (Ok env, World (files w) (trace w ++ [EvReportError e]))
      end
  | Throw e =>
      login_action env now issued saved options w =
        (Ok env, World (files w) (trace w ++ [EvReportError e]))
  end.
Proof.
  intros Hpk Hak.
  destruct ask_authMethod as [[]|e] eqn:Hmethod.
  - destruct ask_privateKey as [key|e] eqn:Hkey.
    + apply login_action_asked. unfold ask_credentials.
      cbn [opt_privateKey opt_apiKey opt_apiUri truthy_opt].
      rewrite Hpk, Hak, Hmethod, Hkey. cbn [negb andb].
      by destruct (truthy key).
    + unfold login_action, ask_credentials, report_error.
      rewrite Hpk, Hak, Hmethod, Hkey. reflexivity.
  - destruct ask_apiKey as [key|e] eqn:Hkey.
    + apply login_action_asked. unfold ask_credentials.
      cbn [opt_privateKey opt_apiKey opt_apiUri truthy_opt].
      rewrite Hpk, Hak, Hmethod, Hkey. cbn [negb andb].
      by destruct (truthy key).
    + unfold login_action, ask_credentials, report_error.
      rewrite Hpk, Hak, Hmethod, Hkey. reflexivity.
  - unfold login_action, ask_credentials, report_error.
    rewrite Hpk, Hak, Hmethod. reflexivity.
Qed.

Lemma grows_log_login_details P details :
  (∀ e, (∀ p, e ≠ EvSignSiWeMessage p) → P e) →
  steps (extends_with P) (log_login_details details).
Proof.
  intros Hother. unfold log_login_details. destruct details as [d|]; [|apply grows_ret].
  repeat (apply grows_bind; [by apply extends_with_emit, Hother|]; intros _).
  by apply extends_with_emit, Hother.
Qed.

Lemma grows_login_action P env now issued saved options :
  (∀ e, (∀ p, e ≠ EvSignSiWeMessage p) → P e) →
  (∀ p, uri p = or_default (env !! "API_URI") DEFAULT_API_URI →
        URL_hostname (uri p) = Some (domain p) → P (EvSignSiWeMessage p)) →
  steps (extends_with P) (login_action env now issued saved options).
Proof.
  intros Hother Hsign.
  assert (Hemit : ∀ e, (∀ p, e ≠ EvSignSiWeMessage p) → steps (extends_with P) (emit e))
    by (intros e He; by apply extends_with_emit, Hother).
  unfold login_action, login_with_siwe, login_with_api_key, report_error.
  apply grows_try_catch.
  2:{ intros e. apply grows_bind; [by apply Hemit|]. intros _. apply grows_ret. }
  apply grows_bind; [apply grows_unchanged, ask_credentials_unchanged|]. intros asked.
  destruct (truthy_opt (opt_privateKey asked)).
  - apply grows_bind; [by apply Hemit|]. intros _.
    apply grows_bind; [|intros _; apply grows_ret].
    apply grows_try_catch.
    2:{ intros e. apply grows_bind; [by apply Hemit|intros _; by apply Hemit]. }
    apply grows_bind; [by apply grows_initSDKWithPrivateKey, Hother|]. intros mesh.
    apply grows_bind; [by apply grows_loginWithSIWE|]. intros token.
    do 4 (apply grows_bind; [by apply Hemit|]; intros _).
    apply grows_try_catch; [|intros _; by apply Hemit].
    apply grows_bind; [by apply grows_call, Hother|]. intros details.
    by apply grows_log_login_details.
  - destruct (truthy_opt (opt_apiKey asked)).
    + apply grows_bind; [by apply Hemit|]. intros _.
      apply grows_bind; [|intros _; apply grows_ret].
      apply grows_try_catch.
      2:{ intros e. apply grows_bind; [by apply Hemit|intros _; by apply Hemit]. }
      apply grows_bind; [by apply grows_initSDK, Hother|]. intros client.
      apply grows_try_catch.
      * apply grows_bind; [by apply grows_call, Hother|]. intros details.
        do 2 (apply grows_bind; [by apply Hemit|]; intros _).
        by apply grows_log_login_details.
      * intros _. do 2 (apply grows_bind; [by apply Hemit|]; intros _).
        by apply Hemit.
    + apply grows_bind; [by apply Hemit|]. intros _. apply grows_ret.
Qed.

(** X17. The message signed in [login] carries the URI of the environment:
    its [uri] is [API_URI], or the default when that variable is unset or
    empty, and its domain is the host name of that URI, whatever
    [--api-uri] says. The URI of [--api-uri] goes to the options of the
    client and not to the message. *)
Theorem login_message_uri env now issued saved options fs params :
  EvSignSiWeMessage params ∈
    trace (login_action env now issued saved options (World fs [])).2 →
  uri params = or_default (env !! "API_URI") DEFAULT_API_URI ∧
  URL_hostname (uri params) = Some (domain params).
Proof.
  intros Hin.
  destruct (grows_login_action
              (λ e, ∀ p, e = EvSignSiWeMessage p →
                         uri p = or_default (env !! "API_URI") DEFAULT_API_URI ∧
                         URL_hostname (uri p) = Some (domain p))
              env now issued saved options) with (w := World fs [])
    as (evs & Htrace & Hall).
  - intros e He p ->. by destruct (He p).
  - intros p Huri Hhost q [= <-]. done.
  - rewrite Htrace in Hin. cbn in Hin.
    rewrite List.Forall_forall in Hall.
    apply list_elem_of_In in Hin. by apply (Hall _ Hin).
Qed.

(** X18. The handler of [login] never throws, and the [process.env] it
    returns differs from the one it started with in [API_KEY] and [API_URI]
    at most. *)
Theorem login_never_throws env now issued saved options w :
  ∃ env', (login_action env now issued saved options w).1 = Ok env' ∧
          ∀ name, name ≠ "API_KEY" → name ≠ "API_URI" → env' !! name = env !! name.
Proof.
  unfold login_action, report_error. unfold_M.
  pose proof (ask_credentials_unchanged options w) as Hw.
  destruct (ask_credentials options w) as [[asked|e] w1]; cbn in *; [|by eexists].
  destruct (truthy_opt (opt_privateKey asked)).
  - match goal with
    | |- context [login_with_siwe ?e ?n ?i ?s ?k ?a ?u ?W] =>
        destruct (login_with_siwe_never_throws e n i s k a u W) as [[] Hok];
        destruct (login_with_siwe e n i s k a u W) as [[[]|err] w']
    end; [|done]. by eexists.
  - destruct (truthy_opt (opt_apiKey asked)); [|by eexists].
    match goal with
    | |- context [login_with_api_key ?e ?n ?W] =>
        destruct (login_with_api_key_never_throws e n W) as [[] Hok];
        destruct (login_with_api_key e n W) as [[[]|err] w']
    end; [|done].
    eexists. split; [reflexivity|]. intros name Hkey Huri.
    by rewrite !lookup_insert_ne.
Qed.

Lemma truthy_or_default o d : truthy d = true → truthy (or_default o d) = true.
Proof.
  intros Hd. destruct o as [s|]; [|done]. cbn. by destruct (truthy s) eqn:Hs.
Qed.

Lemma or_default_truthy s d : truthy s = true → or_default (Some s) d = s.
Proof. intros Hs. cbn. by rewrite Hs. Qed.

Lemma truthy_opt_default o : truthy_opt o = true → truthy (default "" o) = true.
Proof. by destruct o. Qed.

Lemma log_login_details_run details w :
  ∃ lines, log_login_details details w = (Ok tt, World (files w) (trace w ++ lines)) ∧
           Forall (λ e, ∃ text, e = EvConsoleLog text) lines.
Proof.
  destruct w as [fs tr]. destruct details as [d|]; cbn.
  - unfold_M. cbn. rewrite <- !app_assoc. cbn. eexists. split; [reflexivity|].
    repeat (apply List.Forall_cons; [by eexists|]). apply List.Forall_nil.
  - exists []. by rewrite app_nil_r.
Qed.

(** X19. Login with an API key when [PRIVATE_KEY] is not in force: the
    handler sets [API_KEY] and [API_URI], creates the light client from that
    key and URI without reading the credential file, and calls the service
    once, for the account details. The spinner ends in success whether the
    service answers or refuses: a refusal is not reported as an error, it
    only changes the text. Nothing is written to the file system. *)
Theorem login_api_key_run env now issued saved options fs tr :
  truthy_opt (opt_privateKey options) = false →
  truthy_opt (opt_apiKey options) = true →
  truthy_opt (env !! "PRIVATE_KEY") = false →
  let key := default "" (opt_apiKey options) in
  let target :=
    or_default (opt_apiUri options)
      (or_default (env !! "API_URI") "http://localhost:8080") in
  let client :=
    SdkLite (MeshSDKLite_init
               {| apiUri := target; apiKey := key; sdk_version := SDK_VERSION |}) in
  ∃ lines,
    login_action env now issued saved options (World fs tr) =
      (Ok (<["API_URI" := target]> (<["API_KEY" := key]> env)),
       World fs (tr ++ [EvSpinnerStart "Logging in with API key..."; EvAccountDetail;
                        EvSpinnerSucceed
                          match accountDetail client with
                          | Ok _ => "Login successful"
                          | Throw _ => "API key set, but could not verify account details"
                          end] ++ lines)) ∧
    Forall (λ e, ∃ text, e = EvConsoleLog text) lines.
Proof.
  intros Hpk Hak Henv key target client.
  rewrite login_action_api_key by done. fold key target. cbn [files trace].
  assert (Hkey : truthy key = true) by by apply truthy_opt_default.
  assert (Htarget : truthy target = true)
    by (apply truthy_or_default, truthy_or_default; reflexivity).
  unfold login_with_api_key, initSDK, initSDKWithApiKey.
  rewrite lookup_insert_ne by done. rewrite lookup_insert_eq.
  rewrite !lookup_insert_ne by done. rewrite lookup_insert_eq.
  cbn [truthy_opt default]. rewrite Hkey, Henv, (or_default_truthy _ _ Htarget).
  cbn [negb andb].
  unfold_M. cbn. rewrite Hkey. cbn. fold client.
  destruct (accountDetail client) as [details|e]; cbn.
  - match goal with
    | |- context [log_login_details details ?W] =>
        destruct (log_login_details_run details W) as (lines & -> & Hlines)
    end.
    cbn. exists (EvConsoleLog (newline +:+ "Authenticated with API key") :: lines).
    split; [by rewrite <- !app_assoc|].
    apply List.Forall_cons; [by eexists|done].
  - eexists [_; _]. split; [by rewrite <- !app_assoc|].
    repeat (apply List.Forall_cons; [by eexists|]). apply List.Forall_nil.
Qed.

(** X20. A [PRIVATE_KEY] in the environment takes over the login with an API
    key: [initSDK] then creates the wallet client, so when [viem] rejects
    that private key the login fails, with [API_KEY] and [API_URI] set all
    the same, and the service is never asked about the API key. *)
Theorem login_api_key_behind_private_key env now issued saved options fs tr :
  truthy_opt (opt_privateKey options) = false →
  truthy_opt (opt_apiKey options) = true →
  truthy_opt (env !! "PRIVATE_KEY") = true →
  privateKeyToAccount (with_0x (default "" (env !! "PRIVATE_KEY"))) = None →
  login_action env now issued saved options (World fs tr) =
    (Ok (<["API_URI" := or_default (opt_apiUri options)
                          (or_default (env !! "API_URI") "http://localhost:8080")]>
           (<["API_KEY" := default "" (opt_apiKey options)]> env)),
     World fs (tr ++ [EvSpinnerStart "Logging in with API key...";
                      EvSpinnerFail "Login failed";
                      EvReportError (ExternalError "privateKeyToAccount")])).
Proof.
  intros Hpk Hak Henv Hreject.
  rewrite login_action_api_key by done. cbn [files trace].
  unfold login_with_api_key, initSDK, initSDKWithPrivateKey, createUnifiedClient.
  rewrite !(lookup_insert_ne _ _ "PRIVATE_KEY") by done.
  rewrite Henv, (truthy_opt_default _ Henv), andb_false_r.
  cbn [negb]. rewrite normalized_key, Hreject.
  unfold report_error. unfold_M. cbn. by rewrite <- !app_assoc.
Qed.

(** X21. A sign-in with a private key, once the client is initialised: when
    [loginWithSIWE] throws, the spinner fails, the error is printed and the
    service is not asked for the account; when it returns the token, the
    spinner succeeds, the address of the signer and the preview of the token
    are printed, and the account details are asked for once: whatever the
    answer, only lines are printed after it, so a refusal there does not
    turn the login into a failure. In both cases the handler leaves the file
    system as [loginWithSIWE] left it and [process.env] as it was. *)
Theorem login_siwe_outcome env now issued saved options w mesh w1 r w2 :
  truthy_opt (opt_privateKey options) = true →
  initSDKWithPrivateKey (default "" (opt_privateKey options))
    (Some (or_default (opt_apiKey options) ""))
    (Some (or_default (opt_apiUri options)
             (or_default (env !! "API_URI") "http://localhost:8080")))
    now (World (files w) (trace w ++ [EvSpinnerStart "Logging in with SIWE..."]))
  = (Ok mesh, w1) →
  loginWithSIWE env issued saved mesh w1 = (r, w2) →
  ∃ evs,
    login_action env now issued saved options w =
      (Ok env, World (files w2) (trace w2 ++ evs)) ∧
    match r with
    | Throw e => evs = [EvSpinnerFail "Login failed"; EvReportError e]
    | Ok token =>
        ∃ lines,
          evs = [EvSpinnerSucceed "Login successful";
                 EvConsoleLog (newline +:+ "Authenticated with SIWE");
                 EvConsoleLog ("Account Address: " +:+ address (account (getSigner mesh)));
                 EvConsoleLog ("JWT Token: " +:+ token_preview token);
                 EvAccountDetail] ++ lines ∧
          Forall (λ e, ∃ text, e = EvConsoleLog text) lines
    end.
Proof.
  intros Hpk Hinit Hlogin.
  rewrite login_action_siwe by done.
  unfold login_with_siwe, report_error. unfold_M. rewrite Hinit. cbn. rewrite Hlogin.
  destruct w2 as [fs2 tr2]. destruct r as [token|e]; cbn.
  2:{ eexists. split; [by rewrite <- !app_assoc|done]. }
  destruct (accountDetail (SdkMesh mesh)) as [details|e]; cbn.
  - match goal with
    | |- context [log_login_details details ?W] =>
        destruct (log_login_details_run details W) as (lines & -> & Hlines)
    end.
    cbn. eexists. split; [by rewrite <- !app_assoc|]. by exists lines.
  - eexists. split; [by rewrite <- !app_assoc|]. eexists [_]. split; [done|].
    apply List.Forall_cons; [by eexists|apply List.Forall_nil].
Qed.

(** X22. When [API_URI] in the environment is not a URL, a sign-in with a
    private key fails once the client is initialised, whatever [--api-uri]
    is: the nonce is requested, then the handler reports the failure (the
    error of the request, or the [TypeError] of [new URL]); nothing is
    signed and nothing is written. *)
Theorem login_siwe_bad_uri env now issued saved options w mesh w1 :
  truthy_opt (opt_privateKey options) = true →
  initSDKWithPrivateKey (default "" (opt_privateKey options))
    (Some (or_default (opt_apiKey options) ""))
    (Some (or_default (opt_apiUri options)
             (or_default (env !! "API_URI") "http://localhost:8080")))
    now (World (files w) (trace w ++ [EvSpinnerStart "Logging in with SIWE..."]))
  = (Ok mesh, w1) →
  URL_hostname (or_default (env !! "API_URI") DEFAULT_API_URI) = None →
  login_action env now issued saved options w =
    (Ok env,
     World (files w1)
       (trace w1 ++ [EvRequestNonce (address (account (getSigner mesh)));
                     EvSpinnerFail "Login failed";
                     EvReportError
                       match requestNonce mesh (address (account (getSigner mesh))) with
                       | Ok _ => TypeError
                       | Throw e => e
                       end])).
Proof.
  intros Hpk Hinit Hhost.
  rewrite login_action_siwe by done.
  unfold login_with_siwe, report_error. unfold_M. rewrite Hinit. cbn.
  pose proof (loginWithSIWE_cases env issued saved mesh w1) as Hcases.
  cbv zeta in Hcases. rewrite Hhost in Hcases.
  destruct (requestNonce mesh _) as [n|e]; rewrite Hcases; cbn;
    by rewrite <- !app_assoc.
Qed.

(** X23. Login, then a later start: after [loginWithSIWE] has returned a
    token, [initSDKWithPrivateKey] at any time strictly before the clock
    reading of the save plus thirty days prints the notice and returns a
    client that carries this token, whichever key the client is created from;
    from that instant on it returns a client without token and prints
    nothing. The codec is assumed to read back the credential it wrote. *)
Theorem login_then_init env issued saved mesh w token w' key ak target now tr acct :
  loginWithSIWE env issued saved mesh w = (Ok token, w') →
  JSON_parse (JSON_stringify (TokenData token (saved + 2592000000))) =
    Some (TokenData token (saved + 2592000000)) →
  truthy key = true →
  privateKeyToAccount (with_0x key) = Some acct →
  let fresh :=
    MeshSDK_init {| apiUri := default DEFAULT_API_URI target;
                    apiKey := default "" ak;
                    sdk_version := SDK_VERSION |} (sepolia_client acct) in
  initSDKWithPrivateKey key ak target now (World (files w') tr) =
    if bool_decide (now < saved + 2592000000)
    then (Ok (setJwtToken fresh (Some (JStr token))),
          World (files w') (tr ++ [EvConsoleLog "Using existing token"]))
    else (Ok fresh, World (files w') tr).
Proof.
  intros Hlogin Hcodec Hkey Hderive fresh.
  rewrite (initSDKWithPrivateKey_run _ _ _ _ _ _ acct) by done. cbv zeta. fold fresh.
  rewrite (getToken_file _ _ _ _ (loginWithSIWE_saved _ _ _ _ _ _ _ Hlogin)), Hcodec.
  unfold TokenData, js_gt. cbn.
  destruct (Z.ltb_spec now (saved + 2592000000)).
  - by rewrite bool_decide_eq_true_2.
  - by rewrite bool_decide_eq_false_2 by lia.
Qed.

End LoginMore.

Lemma substring_all s n : (String.length s ≤ n)%nat → String.substring 0 n s = s.
Proof.
  revert n. induction s as [|c s IH]; intros [|n] Hlen; cbn in *; try done; try lia.
  f_equal. apply IH. lia.
Qed.

(** X24. The preview of the token that [login] prints hides nothing of a
    token of ten characters or fewer: both ends are the whole token. *)
Theorem token_preview_short token :
  (String.length token ≤ 10)%nat →
  token_preview token = token +:+ "..." +:+ token.
Proof.
  intros Hlen. unfold token_preview, js_substring. cbv zeta.
  set (len := Z.of_nat (String.length token)).
  assert (Hbound : 0 ≤ len ≤ 10) by lia.
  replace (Z.max 0 (Z.min 0 len)) with 0 by lia.
  replace (Z.max 0 (Z.min 10 len)) with len by lia.
  replace (Z.max 0 (Z.min (len - 10) len)) with 0 by lia.
  replace (Z.max 0 (Z.min len len)) with len by lia.
  replace (Z.min 0 len) with 0 by lia.
  replace (Z.max 0 len) with len by lia.
  rewrite Z.sub_0_r. unfold len. rewrite Nat2Z.id. cbn [Z.to_nat].
  by rewrite substring_all.
Qed.

(** ** The further properties on concrete inputs *)

Section MoreExamples.
Import TestRuntime TestPrompts.
Local Existing Instance runtime.



Lemma saveToken_blocked_witness :
  ∃ e, saveToken 1000 "jwt" 60 (World (<[TOKEN_DIR := File "x"]> ∅) []) =
         (Throw e,
          World (<[TOKEN_DIR := File "x"]> ∅)
            ([] ++ [EvWriteFile TOKEN_FILE
                      (JSON_stringify (TokenData "jwt" (1000 + 60 * 1000)))])).
Proof.
  apply (saveToken_blocked 1000 "jwt" 60 (<[TOKEN_DIR := File "x"]> ∅) []).
  - left. exists "x". apply lookup_insert_eq.
  - exists (File "x"). apply lookup_insert_eq.
Defined.

Lemma initSDK_private_key_uses_cache_witness :
  initSDK (service := accepting) only_private_key 3 (World (cached_files credential) []) =
    let mesh :=
      MeshSDK_init {| apiUri := or_default (only_private_key !! "API_URI") DEFAULT_API_URI;
                      apiKey := or_default (only_private_key !! "API_KEY") "";
                      sdk_version := "0.1.0" |} (sepolia_client account_1234) in
    match (getToken 3 (World (cached_files credential) [])).1 with
    | Ok (Some (JObj members)) =>
        (Ok (SdkMesh (setJwtToken mesh (lookup_member "token" members))),
         World (cached_files credential) ([] ++ [EvConsoleLog "Using existing token"]))
    | _ => (Ok (SdkMesh mesh), World (cached_files credential) [])
    end.
Proof.
  apply (initSDK_private_key_uses_cache (service := accepting) only_private_key 3
           (cached_files credential) [] account_1234).
  - reflexivity.
  - reflexivity.
Defined.

Lemma initSDK_no_fallback_witness :
  initSDK (service := accepting) rejected_private_key 3 empty_world =
    (Throw (ExternalError "privateKeyToAccount"), empty_world).
Proof.
  apply (initSDK_no_fallback (service := accepting) rejected_private_key 3 empty_world).
  - reflexivity.
  - reflexivity.
Defined.

Lemma initSDK_api_key_ignores_cache_witness :
  initSDK (service := accepting) only_api_key 3 empty_world =
    (Ok (SdkLite (MeshSDKLite_init
                    {| apiUri := or_default (only_api_key !! "API_URI") DEFAULT_API_URI;
                       apiKey := default "" (only_api_key !! "API_KEY");
                       sdk_version := "0.1.0" |})), empty_world) ∧
  ∀ now' fs',
    (initSDK (service := accepting) only_api_key now' (World fs' (trace empty_world))).1 =
    (initSDK (service := accepting) only_api_key 3 empty_world).1.
Proof.
  apply (initSDK_api_key_ignores_cache (service := accepting) only_api_key 3 empty_world).
  - reflexivity.
  - reflexivity.
Defined.

Lemma authorize_without_request_witness :
  ∃ text rest,
    (length rest ≤ 1)%nat ∧ sdk_calls rest = [] ∧
    ∀ env now,
      authorize_action (service := accepting) env now no_request (World ∅ []) =
        (Ok tt, World ∅ ([EvSpinnerStart "Validating authorization...";
                          EvSpinnerFail text] ++ rest)) ∧
      authorize_batch_action (service := accepting) env now no_request (World ∅ []) =
        (Ok tt, World ∅ ([EvSpinnerStart "Validating batch authorization...";
                          EvSpinnerFail text] ++ rest)).
Proof.
  apply (authorize_without_request (service := accepting) no_request ∅).
  reflexivity.
Defined.

Lemma authorize_writes_only_on_success_witness :
  is_Some (outfile_path (opt_outfile inline_request)) ∧
  ∃ v client w1 response,
    selected_request inline_request ∅ = Some v ∧
    initSDK (service := accepting) only_api_key 0
      (World ∅ [EvSpinnerStart "Validating authorization..."]) = (Ok client, w1) ∧
    validateAuthorization (MeshSdk := accepting) client v = Ok response.
Proof.
  apply (authorize_writes_only_on_success (service := accepting) only_api_key 0
           inline_request ∅).
  intros Hsame.
  apply (f_equal (λ fs : gmap path node, fs !! resolve "tmp/my.json")) in Hsame.
  vm_compute in Hsame. discriminate Hsame.
Defined.

Lemma authorize_saves_to_outfile_witness :
  ∃ fs' tr',
    authorize_action (service := accepting) only_api_key 0 inline_request (World ∅ []) =
      (Ok tt, World fs' tr') ∧
    fs' !! path_resolve "tmp/my.json" =
      Some (File (JSON_stringify_pretty (JObj [("allowed", JBool true)]))) ∧
    last tr' = Some (EvConsoleLog (newline +:+ "Response saved to " +:+ "tmp/my.json")).
Proof.
  apply (authorize_saves_to_outfile (service := accepting) only_api_key 0 inline_request ∅
           request lite_client (JObj [("allowed", JBool true)]) "tmp/my.json").
  - vm_compute. reflexivity.
  - vm_compute. reflexivity.
  - reflexivity.
  - reflexivity.
  - vm_compute. discriminate.
  - intros pre c _. by rewrite lookup_empty.
  - by rewrite lookup_empty.
Defined.

Lemma account_exists_calls_witness :
  ∃ tr',
    account_exists_action (service := accepting) only_api_key 0 "0xabc" (World ∅ []) =
      (Ok tt, World ∅ tr') ∧
    sdk_calls tr' = EvAccountExists "0xabc" :: (if true then [EvAccountDetail] else []) ∧
    (∀ text, EvSpinnerFail text ∉ tr') ∧
    (∀ e, EvReportError e ∉ tr').
Proof.
  apply (account_exists_calls (service := accepting) only_api_key 0 "0xabc" ∅ lite_client true).
  - reflexivity.
  - vm_compute. reflexivity.
  - reflexivity.
Defined.

Lemma account_exists_refused_witness :
  ∃ logs,
    account_exists_action (service := refusing) only_api_key 0 "0xabc" (World ∅ []) =
      (Ok tt,
       World ∅ ([EvSpinnerStart "Checking if account exists..."] ++ logs ++
                [EvAccountExists "0xabc";
                 EvSpinnerFail "Failed to check account";
                 EvReportError (ExternalError "401")])) ∧
    sdk_calls logs = [].
Proof.
  apply (account_exists_refused (service := refusing) only_api_key 0 "0xabc" ∅ lite_client
           (ExternalError "401")).
  - reflexivity.
  - vm_compute. reflexivity.
  - reflexivity.
Defined.

Lemma login_prompt_as_option_witness :
  login_action (service := accepting) (prompts := siwe_user) ∅ 0 1000 2000
    no_options empty_world =
  login_action (service := accepting) (prompts := siwe_user) ∅ 0 1000 2000
    {| opt_privateKey := Some "1234"; opt_apiKey := opt_apiKey no_options;
       opt_apiUri := opt_apiUri no_options |} empty_world.
Proof.
  apply (login_prompt_as_option (service := accepting) (prompts := siwe_user) ∅ 0 1000 2000
           no_options empty_world).
  - reflexivity.
  - reflexivity.
Defined.

Lemma login_message_uri_witness :
  uri {| domain := "localhost"; siwe_address := "0xA1234"; uri := "http://localhost:8080";
         version := "1"; chainId := 1; nonce := "nonce-0xA1234"; issuedAt := 1000 |} =
    or_default ((∅ : gmap string string) !! "API_URI") DEFAULT_API_URI ∧
  URL_hostname
    (uri {| domain := "localhost"; siwe_address := "0xA1234";
            uri := "http://localhost:8080"; version := "1"; chainId := 1;
            nonce := "nonce-0xA1234"; issuedAt := 1000 |}) =
    Some (domain {| domain := "localhost"; siwe_address := "0xA1234";
                    uri := "http://localhost:8080"; version := "1"; chainId := 1;
                    nonce := "nonce-0xA1234"; issuedAt := 1000 |}).
Proof.
  apply (login_message_uri (service := accepting) (prompts := no_terminal) ∅ 0 1000 2000
           by_private_key ∅).
  apply (list_elem_of_lookup_2 _ 2). vm_compute. reflexivity.
Defined.

Lemma login_api_key_run_witness :
  ∃ lines,
    login_action (service := accepting) (prompts := no_terminal) ∅ 0 1000 2000
      by_api_key (World ∅ []) =
      (Ok (<["API_URI" := or_default None
                            (or_default ((∅ : gmap string string) !! "API_URI")
                               DEFAULT_API_URI)]>
             (<["API_KEY" := "k"]> ∅)),
       World ∅ ([] ++ [EvSpinnerStart "Logging in with API key..."; EvAccountDetail;
                       EvSpinnerSucceed
                         "API key set, but could not verify account details"] ++ lines)) ∧
    Forall (λ e, ∃ text, e = EvConsoleLog text) lines.
Proof.
  apply (login_api_key_run (service := accepting) (prompts := no_terminal) ∅ 0 1000 2000
           by_api_key ∅ []).
  - reflexivity.
  - reflexivity.
  - reflexivity.
Defined.

Lemma login_api_key_behind_private_key_witness :
  login_action (service := accepting) (prompts := no_terminal)
    {[ "PRIVATE_KEY" := "0x" ]} 0 1000 2000 by_api_key (World ∅ []) =
    (Ok (<["API_URI" := or_default None
                          (or_default (({[ "PRIVATE_KEY" := "0x" ]} : gmap string string)
                                         !! "API_URI") DEFAULT_API_URI)]>
           (<["API_KEY" := "k"]> {[ "PRIVATE_KEY" := "0x" ]})),
     World ∅ ([] ++ [EvSpinnerStart "Logging in with API key...";
                     EvSpinnerFail "Login failed";
                     EvReportError (ExternalError "privateKeyToAccount")])).
Proof.
  apply (login_api_key_behind_private_key (service := accepting) (prompts := no_terminal)
           {[ "PRIVATE_KEY" := "0x" ]} 0 1000 2000 by_api_key ∅ []).
  - reflexivity.
  - reflexivity.
  - reflexivity.
  - reflexivity.
Defined.

Lemma login_siwe_outcome_witness :
  ∃ evs,
    login_action (service := accepting) (prompts := no_terminal) ∅ 0 1000 2000
      by_private_key empty_world =
      (Ok ∅,
       World
         (files (loginWithSIWE (service := accepting) ∅ 1000 2000
                   (login_mesh "http://other:9090")
                   (World ∅ [EvSpinnerStart "Logging in with SIWE..."])).2)
         (trace (loginWithSIWE (service := accepting) ∅ 1000 2000
                   (login_mesh "http://other:9090")
                   (World ∅ [EvSpinnerStart "Logging in with SIWE..."])).2 ++ evs)) ∧
    ∃ lines,
      evs = [EvSpinnerSucceed "Login successful";
             EvConsoleLog (newline +:+ "Authenticated with SIWE");
             EvConsoleLog ("Account Address: " +:+
                           address (account (getSigner (login_mesh "http://other:9090"))));
             EvConsoleLog ("JWT Token: " +:+ token_preview "jwt");
             EvAccountDetail] ++ lines ∧
      Forall (λ e, ∃ text, e = EvConsoleLog text) lines.
Proof.
  apply (login_siwe_outcome (service := accepting) (prompts := no_terminal) ∅ 0 1000 2000
           by_private_key empty_world (login_mesh "http://other:9090")
           (World ∅ [EvSpinnerStart "Logging in with SIWE..."]) (Ok "jwt")
           (loginWithSIWE (service := accepting) ∅ 1000 2000
              (login_mesh "http://other:9090")
              (World ∅ [EvSpinnerStart "Logging in with SIWE..."])).2).
  - reflexivity.
  - vm_compute. reflexivity.
  - vm_compute. reflexivity.
Defined.

Lemma login_siwe_bad_uri_witness :
  login_action (service := accepting) (prompts := no_terminal) no_url 0 1000 2000
    by_private_key empty_world =
    (Ok no_url,
     World ∅
       ([EvSpinnerStart "Logging in with SIWE..."] ++
        [EvRequestNonce "0xA1234";
         EvSpinnerFail "Login failed";
         EvReportError TypeError])).
Proof.
  apply (login_siwe_bad_uri (service := accepting) (prompts := no_terminal) no_url 0 1000 2000
           by_private_key empty_world (login_mesh "http://other:9090")
           (World ∅ [EvSpinnerStart "Logging in with SIWE..."])).
  - reflexivity.
  - vm_compute. reflexivity.
  - reflexivity.
Defined.

Lemma login_then_init_witness :
  initSDKWithPrivateKey (service := accepting) "1234" None None 5000
    (World (files (loginWithSIWE (service := accepting) ∅ 1000 2000 mesh empty_world).2) []) =
    if bool_decide (5000 < 2000 + 2592000000)
    then (Ok (setJwtToken
                (MeshSDK_init {| apiUri := default DEFAULT_API_URI None;
                                 apiKey := default "" None;
                                 sdk_version := SDK_VERSION |}
                   (sepolia_client account_1234))
                (Some (JStr "jwt"))),
          World (files (loginWithSIWE (service := accepting) ∅ 1000 2000 mesh empty_world).2)
            ([] ++ [EvConsoleLog "Using existing token"]))
    else (Ok (MeshSDK_init {| apiUri := default DEFAULT_API_URI None;
                              apiKey := default "" None;
                              sdk_version := SDK_VERSION |}
                (sepolia_client account_1234)),
          World (files (loginWithSIWE (service := accepting) ∅ 1000 2000 mesh empty_world).2)
            []).
Proof.
  apply (login_then_init (service := accepting) ∅ 1000 2000 mesh empty_world "jwt"
           (loginWithSIWE (service := accepting) ∅ 1000 2000 mesh empty_world).2
           "1234" None None 5000 [] account_1234).
  - vm_compute. reflexivity.
  - vm_compute. reflexivity.
  - reflexivity.
  - reflexivity.
Defined.

Lemma token_preview_short_witness : token_preview "jwt" = "jwt" +:+ "..." +:+ "jwt".
Proof. apply (token_preview_short "jwt"). cbn. lia. Defined.

End MoreExamples.
